(** * Authorisation filter for the [_changes] feed

    A shallow embedding of [isUserAllowed] (src/auth/isUserAllowed.ts) and of
    [createPouchFilterMiddleware] (src/middleware/pouchFilterMiddleware.ts),
    and the properties the design document states about them.

    JavaScript strings are modelled as byte strings holding the UTF-8
    encoding of the text, a [Buffer] as its bytes; [undefined] is
    [None]; an exception is the [Throw] constructor of [result]. *)

From Stdlib Require Import ZArith Ascii String.
From stdpp Require Import base tactics option list strings gmap.

Set Warnings "-register-all".

(** ** JavaScript string primitives used by the middleware *)

Module JS.

Definition LF : ascii := "010"%char.

(** [s.lastIndexOf(c)]; [None] stands for [-1]. *)
Fixpoint lastIndexOf (c : ascii) (s : string) : option nat :=
  match s with
  | EmptyString => None
  | String a r =>
      match lastIndexOf c r with
      | Some i => Some (S i)
      | None => if Ascii.eqb a c then Some 0 else None
      end
  end.

(** [s.substring(0, n)] and [s.substring(n)]. *)
Fixpoint substring_to (n : nat) (s : string) : string :=
  match n, s with
  | S n', String a r => String a (substring_to n' r)
  | _, _ => EmptyString
  end.

Fixpoint substring_from (n : nat) (s : string) : string :=
  match n, s with
  | S n', String _ r => substring_from n' r
  | _, _ => s
  end.

(** [s.split(c)]: never empty, [n] separators give [n + 1] pieces. *)
Fixpoint split (c : ascii) (s : string) : list string :=
  match s with
  | EmptyString => [EmptyString]
  | String a r =>
      if Ascii.eqb a c then EmptyString :: split c r
      else match split c r with
           | [] => [String a EmptyString]
           | piece :: rest => String a piece :: rest
           end
  end.

(** [pieces.join(sep)]. *)
Fixpoint join (sep : string) (pieces : list string) : string :=
  match pieces with
  | [] => EmptyString
  | [p] => p
  | p :: rest => p +:+ sep +:+ join sep rest
  end.

(** [hay.includes(needle)]. *)
Fixpoint includes (needle hay : string) : bool :=
  String.prefix needle hay
  || match hay with
     | EmptyString => false
     | String _ r => includes needle r
     end.

(** The characters [String.prototype.trim] strips (WhiteSpace and
    LineTerminator of ECMAScript), in their UTF-8 encoding.  [trimStart]
    removes a leading run of them. *)
Fixpoint trimStart (s : string) : string :=
  match s with
  | String "009" r | String "010" r | String "011" r
  | String "012" r | String "013" r | String " " r => trimStart r
  | String "194" (String "160" r) => trimStart r            (* U+00A0 *)
  | String "225" (String "154" (String "128" r)) => trimStart r  (* U+1680 *)
  | String "226" (String "128" (String c r)) =>
      (* U+2000..U+200A, U+2028, U+2029, U+202F *)
      let n := nat_of_ascii c in
      if (128 <=? n)%nat && (n <=? 138)%nat || (n =? 168)%nat
         || (n =? 169)%nat || (n =? 175)%nat
      then trimStart r else s
  | String "226" (String "129" (String "159" r)) => trimStart r  (* U+205F *)
  | String "227" (String "128" (String "128" r)) => trimStart r  (* U+3000 *)
  | String "239" (String "187" (String "191" r)) => trimStart r  (* U+FEFF *)
  | _ => s
  end.

Fixpoint trimEnd (s : string) : string :=
  match s with
  | EmptyString => EmptyString
  | String a r =>
      match trimStart s with
      | EmptyString => EmptyString
      | _ => String a (trimEnd r)
      end
  end.

Definition trim (s : string) : string := trimEnd (trimStart s).

(** Truthiness of a string: only the empty string is falsy. *)
Definition truthy_string (s : string) : bool :=
  match s with EmptyString => false | _ => true end.

(** *** [Buffer.prototype.toString]: UTF-8 decoding with replacement

    A string is kept as its UTF-8 bytes, so decoding a buffer copies
    every well-formed sequence and puts U+FFFD in the place of every
    maximal ill-formed one. *)

(** U+FFFD, encoded. *)
Definition replacement : string :=
  String (ascii_of_nat 239)
    (String (ascii_of_nat 191) (String (ascii_of_nat 189) EmptyString)).

Record decoder : Type := {
  needed : nat;             (* continuation bytes still expected *)
  seen : string;            (* the bytes of the sequence so far *)
  lower : N;                (* the range the next byte must lie in *)
  upper : N;
}.

Definition idle : decoder :=
  {| needed := 0; seen := EmptyString; lower := 128; upper := 191 |}.

(** A byte met between two sequences. *)
Definition lead (b : ascii) : string * decoder :=
  let n := N_of_ascii b in
  let sequence k lo hi :=
    (EmptyString,
     {| needed := k; seen := String b EmptyString;
        lower := lo; upper := hi |}) in
  if (n <=? 127)%N then (String b EmptyString, idle)
  else if (194 <=? n)%N && (n <=? 223)%N then sequence 1 128%N 191%N
  else if (224 <=? n)%N && (n <=? 239)%N then
    sequence 2 (if (n =? 224)%N then 160%N else 128%N)
               (if (n =? 237)%N then 159%N else 191%N)
  else if (240 <=? n)%N && (n <=? 244)%N then
    sequence 3 (if (n =? 240)%N then 144%N else 128%N)
               (if (n =? 244)%N then 143%N else 191%N)
  else (replacement, idle).

(** One byte: what is decoded by now, and the decoder's next state.  A
    byte that cannot continue the sequence ends it with U+FFFD and is
    read again as a first byte. *)
Definition decode_byte (d : decoder) (b : ascii) : string * decoder :=
  match needed d with
  | 0 => lead b
  | S k =>
      let n := N_of_ascii b in
      if (lower d <=? n)%N && (n <=? upper d)%N then
        match k with
        | 0 => (seen d +:+ String b EmptyString, idle)
        | S _ =>
            (EmptyString,
             {| needed := k; seen := seen d +:+ String b EmptyString;
                lower := 128; upper := 191 |})
        end
      else (replacement +:+ fst (lead b), snd (lead b))
  end.

Fixpoint decode (d : decoder) (bytes : string) : string :=
  match bytes with
  | EmptyString =>
      match needed d with 0 => EmptyString | S _ => replacement end
  | String b rest =>
      fst (decode_byte d b) +:+ decode (snd (decode_byte d b)) rest
  end.

Definition utf8_decode (bytes : string) : string := decode idle bytes.

End JS.

(** ** JSON values and [JSON.parse] *)

Module Json.

(** A number literal is kept exactly, as [m * 10^e]. *)
Inductive json : Type :=
| JNull
| JBool (b : bool)
| JNum (m e : Z)
| JStr (s : string)
| JArr (items : list json)
| JObj (fields : list (string * json)).

(** Outcome of a sub-parser: the value and the unread input, a syntax
    error, or recursion budget exhausted. *)
Inductive presult (A : Type) : Type :=
| POk (a : A) (rest : string)
| PErr
| PFuel.
Arguments POk {A} a rest.
Arguments PErr {A}.
Arguments PFuel {A}.

Definition is_json_ws (c : ascii) : bool :=
  Ascii.eqb c " " || Ascii.eqb c "009" || Ascii.eqb c "010"
  || Ascii.eqb c "013".

Fixpoint skip_ws (s : string) : string :=
  match s with
  | EmptyString => s
  | String c r => if is_json_ws c then skip_ws r else s
  end.

Definition is_digit (c : ascii) : bool :=
  let n := nat_of_ascii c in (48 <=? n)%nat && (n <=? 57)%nat.

Definition digit_val (c : ascii) : Z := (Z.of_nat (nat_of_ascii c) - 48)%Z.

Definition hex_val (c : ascii) : option N :=
  let n := N_of_ascii c in
  if (48 <=? n)%N && (n <=? 57)%N then Some (n - 48)%N
  else if (65 <=? n)%N && (n <=? 70)%N then Some (n - 55)%N
  else if (97 <=? n)%N && (n <=? 102)%N then Some (n - 87)%N
  else None.

Definition hex4 (a b c d : ascii) : option N :=
  match hex_val a, hex_val b, hex_val c, hex_val d with
  | Some x, Some y, Some z, Some w =>
      Some (((x * 16 + y) * 16 + z) * 16 + w)%N
  | _, _, _, _ => None
  end.

Definition byte (n : N) : string := String (ascii_of_N n) EmptyString.

(** UTF-8 encoding of a code point (a lone surrogate is encoded like
    any other three-byte code point). *)
Definition utf8_encode (cp : N) : string :=
  if (cp <? 128)%N then byte cp
  else if (cp <? 2048)%N then
    byte (192 + cp / 64) +:+ byte (128 + cp mod 64)
  else if (cp <? 65536)%N then
    byte (224 + cp / 4096) +:+ byte (128 + (cp / 64) mod 64)
    +:+ byte (128 + cp mod 64)
  else
    byte (240 + cp / 262144) +:+ byte (128 + (cp / 4096) mod 64)
    +:+ byte (128 + (cp / 64) mod 64) +:+ byte (128 + cp mod 64).

Definition is_high_surrogate (u : N) : bool :=
  (55296 <=? u)%N && (u <=? 56319)%N.
Definition is_low_surrogate (u : N) : bool :=
  (56320 <=? u)%N && (u <=? 57343)%N.

Definition cons_to {A} (s : string) (r : option (string * A))
  : option (string * A) :=
  match r with
  | Some (t, a) => Some (s +:+ t, a)
  | None => None
  end.

(** The characters of a string literal after its opening quote, up to
    and including the closing quote. *)
Fixpoint parse_string_body (s : string) : option (string * string) :=
  match s with
  | EmptyString => None
  | String "034" r => Some (EmptyString, r)
  | String "\" (String "034" r) => cons_to (byte 34) (parse_string_body r)
  | String "\" (String "\" r) => cons_to (byte 92) (parse_string_body r)
  | String "\" (String "/" r) => cons_to (byte 47) (parse_string_body r)
  | String "\" (String "b" r) => cons_to (byte 8) (parse_string_body r)
  | String "\" (String "f" r) => cons_to (byte 12) (parse_string_body r)
  | String "\" (String "n" r) => cons_to (byte 10) (parse_string_body r)
  | String "\" (String "r" r) => cons_to (byte 13) (parse_string_body r)
  | String "\" (String "t" r) => cons_to (byte 9) (parse_string_body r)
  | String "\" (String "u" (String a (String b (String c (String d r))))) =>
      match hex4 a b c d with
      | None => None
      | Some hi =>
          match r with
          | String "\" (String "u"
              (String a' (String b' (String c' (String d' r'))))) =>
              match hex4 a' b' c' d' with
              | Some lo =>
                  if is_high_surrogate hi && is_low_surrogate lo
                  then cons_to
                         (utf8_encode
                            (65536 + (hi - 55296) * 1024 + (lo - 56320)))
                         (parse_string_body r')
                  else cons_to (utf8_encode hi) (parse_string_body r)
              | None => cons_to (utf8_encode hi) (parse_string_body r)
              end
          | _ => cons_to (utf8_encode hi) (parse_string_body r)
          end
      end
  | String "\" _ => None
  | String c r =>
      if (nat_of_ascii c <? 32)%nat then None
      else cons_to (String c EmptyString) (parse_string_body r)
  end.

Fixpoint take_digits (s : string) : string * string :=
  match s with
  | String c r =>
      if is_digit c
      then let '(ds, rest) := take_digits r in (String c ds, rest)
      else (EmptyString, s)
  | EmptyString => (EmptyString, EmptyString)
  end.

Fixpoint digits_value (acc : Z) (ds : string) : Z :=
  match ds with
  | EmptyString => acc
  | String c r => digits_value (10 * acc + digit_val c)%Z r
  end.

(** The integer part of a number literal: a single zero, or digits that
    do not start with zero. *)
Definition parse_int (s : string) : option (string * string) :=
  match s with
  | EmptyString => None
  | String c r =>
      if Ascii.eqb c "0" then Some (String c EmptyString, r)
      else if is_digit c then Some (take_digits s)
      else None
  end.

(** The optional fraction: a point and at least one digit. *)
Definition parse_frac (s : string) : option (string * string) :=
  match s with
  | EmptyString => Some (EmptyString, s)
  | String c r =>
      if Ascii.eqb c "." then
        match take_digits r with
        | (EmptyString, _) => None
        | (fds, rest) => Some (fds, rest)
        end
      else Some (EmptyString, s)
  end.

(** The optional sign of an exponent; [true] for a minus. *)
Definition parse_sign (s : string) : bool * string :=
  match s with
  | EmptyString => (false, s)
  | String c r =>
      if Ascii.eqb c "-" then (true, r)
      else if Ascii.eqb c "+" then (false, r)
      else (false, s)
  end.

(** The optional exponent: [e] or [E], a sign, at least one digit. *)
Definition parse_exp (s : string) : option (Z * string) :=
  match s with
  | EmptyString => Some (0%Z, s)
  | String c r =>
      if Ascii.eqb c "e" || Ascii.eqb c "E" then
        let '(neg, r1) := parse_sign r in
        match take_digits r1 with
        | (EmptyString, _) => None
        | (eds, rest) =>
            let e := digits_value 0 eds in
            Some (if neg then (- e)%Z else e, rest)
        end
      else Some (0%Z, s)
  end.

(** [int frac? exp?] of a number literal, the sign already read. *)
Definition parse_unsigned (s : string) : option (Z * Z * string) :=
  match parse_int s with
  | None => None
  | Some (ids, r1) =>
      match parse_frac r1 with
      | None => None
      | Some (fds, r2) =>
          match parse_exp r2 with
          | None => None
          | Some (e, r3) =>
              Some (digits_value 0 (ids +:+ fds),
                    (e - Z.of_nat (String.length fds))%Z, r3)
          end
      end
  end.

Definition parse_number (s : string) : option (json * string) :=
  match s with
  | EmptyString => None
  | String c r =>
      if Ascii.eqb c "-" then
        match parse_unsigned r with
        | Some (m, e, rest) => Some (JNum (- m)%Z e, rest)
        | None => None
        end
      else
        match parse_unsigned s with
        | Some (m, e, rest) => Some (JNum m e, rest)
        | None => None
        end
  end.

Definition of_option {A} (o : option (A * string)) : presult A :=
  match o with
  | Some (a, r) => POk a r
  | None => PErr
  end.

(** [s] without its prefix [p], when it starts with [p]. *)
Fixpoint strip_prefix (p s : string) : option string :=
  match p, s with
  | EmptyString, _ => Some s
  | String a p', String b s' =>
      if Ascii.eqb a b then strip_prefix p' s' else None
  | String _ _, EmptyString => None
  end.

Definition quote : ascii := "034"%char.

(** The literals [true], [false] and [null], and numbers. *)
Definition parse_atom (s : string) : presult json :=
  match strip_prefix "true" s with
  | Some r => POk (JBool true) r
  | None =>
      match strip_prefix "false" s with
      | Some r => POk (JBool false) r
      | None =>
          match strip_prefix "null" s with
          | Some r => POk JNull r
          | None => of_option (parse_number s)
          end
      end
  end.

(** Recursive descent over value, array elements and object members. *)
Fixpoint parse_value (fuel : nat) (s : string) : presult json :=
  match fuel with
  | O => PFuel
  | S fuel' =>
      match skip_ws s with
      | EmptyString => PErr
      | String c r =>
          if Ascii.eqb c "{" then
            match skip_ws r with
            | EmptyString => PErr
            | String c' r' =>
                if Ascii.eqb c' "}" then POk (JObj []) r'
                else parse_members fuel' r []
            end
          else if Ascii.eqb c "[" then
            match skip_ws r with
            | EmptyString => PErr
            | String c' r' =>
                if Ascii.eqb c' "]" then POk (JArr []) r'
                else parse_elements fuel' r []
            end
          else if Ascii.eqb c quote then
            match parse_string_body r with
            | Some (str, r') => POk (JStr str) r'
            | None => PErr
            end
          else parse_atom (String c r)
      end
  end
with parse_elements (fuel : nat) (s : string) (acc : list json)
  : presult json :=
  match fuel with
  | O => PFuel
  | S fuel' =>
      match parse_value fuel' s with
      | POk v r =>
          match skip_ws r with
          | EmptyString => PErr
          | String c r' =>
              if Ascii.eqb c "," then parse_elements fuel' r' (acc ++ [v])
              else if Ascii.eqb c "]" then POk (JArr (acc ++ [v])) r'
              else PErr
          end
      | PErr => PErr
      | PFuel => PFuel
      end
  end
with parse_members (fuel : nat) (s : string) (acc : list (string * json))
  : presult json :=
  match fuel with
  | O => PFuel
  | S fuel' =>
      match skip_ws s with
      | EmptyString => PErr
      | String c r =>
          if Ascii.eqb c quote then
            match parse_string_body r with
            | Some (key, r1) =>
                match skip_ws r1 with
                | EmptyString => PErr
                | String c1 r2 =>
                    if Ascii.eqb c1 ":" then
                      match parse_value fuel' r2 with
                      | POk v r3 =>
                          match skip_ws r3 with
                          | EmptyString => PErr
                          | String c3 r4 =>
                              if Ascii.eqb c3 "," then
                                parse_members fuel' r4 (acc ++ [(key, v)])
                              else if Ascii.eqb c3 "}" then
                                POk (JObj (acc ++ [(key, v)])) r4
                              else PErr
                          end
                      | PErr => PErr
                      | PFuel => PFuel
                      end
                    else PErr
                end
            | None => PErr
            end
          else PErr
      end
  end.

(** [JSON.parse(text)]; [None] is the [SyntaxError] it throws.  Each
    level of nesting takes two units of the recursion budget and at
    least one character, so twice the length of the text is enough. *)
Definition JSON_parse (text : string) : option json :=
  match parse_value (S (2 * String.length text)) text with
  | POk v rest =>
      match skip_ws rest with
      | EmptyString => Some v
      | _ => None
      end
  | _ => None
  end.

(** [obj[key]] for an object built by [JSON.parse]: of two members with
    one name the later wins. *)
Fixpoint lookup_field (key : string) (fields : list (string * json))
  : option json :=
  match fields with
  | [] => None
  | (k, v) :: rest =>
      match lookup_field key rest with
      | Some w => Some w
      | None => if String.eqb k key then Some v else None
      end
  end.

(** Is the double nearest to [m * 10^e] different from zero?  Values of
    magnitude at most [2^-1075] round to zero. *)
Definition num_nonzero (m e : Z) : bool :=
  if (m =? 0)%Z then false
  else if (0 <=? e)%Z then true
  else (10 ^ (- e) <? Z.abs m * 2 ^ 1075)%Z.

(** JavaScript truthiness of a parsed value. *)
Definition truthy (v : json) : bool :=
  match v with
  | JNull => false
  | JBool b => b
  | JNum m e => num_nonzero m e
  | JStr s => JS.truthy_string s
  | JArr _ | JObj _ => true
  end.

End Json.

(** An expression either yields a value or throws. *)
Inductive result (A : Type) : Type :=
| Ok (a : A)
| Throw.
Arguments Ok {A} a.
Arguments Throw {A}.

(** ** The visibility policy: src/auth/isUserAllowed.ts *)

Module Policy.

(** The payload [authMiddleware] attaches as [req.user]. *)
Record User : Type := {
  userId : string;
  username : string;
  role : string;
}.

(** The fields of a stored document the policy reads.  [teacherId] and
    [studentIds] are [None] on a document that does not carry them. *)
Record AnyDocument : Type := {
  type : string;
  _id : string;
  teacherId : option string;
  studentIds : option (list string);
}.

(** [arr.includes(x)] on an array of strings. *)
Definition array_includes (x : string) (arr : list string) : bool :=
  existsb (String.eqb x) arr.

Definition isUserAllowed (user : User) (doc : AnyDocument) : result bool :=
  (* Rule 1: Admins can see everything. *)
  if String.eqb (role user) "admin" then Ok true
  (* Rule 2: Users can always see their own user document. *)
  else if String.eqb (type doc) "user" && String.eqb (_id doc) (userId user)
  then Ok true
  (* Rule 3: Teachers can see any student or teacher document. *)
  else if String.eqb (role user) "teacher"
          && (String.eqb (type doc) "student"
              || String.eqb (type doc) "teacher")
  then Ok true
  (* Rule 4: Teachers can only see classes they are assigned to. *)
  else if String.eqb (type doc) "class" && String.eqb (role user) "teacher"
          && bool_decide (teacherId doc = Some (userId user))
  then Ok true
  (* Rule 5: students see the classes that list them. *)
  else if String.eqb (type doc) "class" && String.eqb (role user) "student"
  then match studentIds doc with
       | None => Throw        (* undefined.includes: TypeError *)
       | Some ids =>
           if array_includes (userId user) ids then Ok true else Ok false
       end
  (* Default: Deny access *)
  else Ok false.

(** *** The rule list of the design document, section 4.1 *)

(** The owner identity of a document: a user document belongs to the
    user it describes. *)
Definition ownerId (doc : AnyDocument) : option string :=
  if String.eqb (type doc) "user" then Some (_id doc) else None.

(** The blanket grants of a role over document types. *)
Definition blanket_grant (r ty : string) : bool :=
  String.eqb r "teacher"
  && (String.eqb ty "student" || String.eqb ty "teacher").

(** The relation a document encodes: the members it lists and its
    designated controller. *)
Definition members (doc : AnyDocument) : list string :=
  if String.eqb (type doc) "class" then default [] (studentIds doc) else [].
Definition controller (doc : AnyDocument) : option string :=
  if String.eqb (type doc) "class" then teacherId doc else None.

(** First match over the five rules as the design document words them. *)
Definition decide_spec (p : User) (doc : AnyDocument) : bool :=
  if String.eqb (role p) "admin" then true
  else if bool_decide (ownerId doc = Some (userId p)) then true
  else if blanket_grant (role p) (type doc) then true
  else if array_includes (userId p) (members doc)
          || bool_decide (controller doc = Some (userId p)) then true
  else false.

(** The rules as the code guards them, one entry per [if]: [None] when
    the rule does not apply. *)
Definition rule := User -> AnyDocument -> option (result bool).

Definition rule_admin : rule := fun u _ =>
  if String.eqb (role u) "admin" then Some (Ok true) else None.
Definition rule_own_user_document : rule := fun u d =>
  if String.eqb (type d) "user" && String.eqb (_id d) (userId u)
  then Some (Ok true) else None.
Definition rule_teacher_grant : rule := fun u d =>
  if blanket_grant (role u) (type d) then Some (Ok true) else None.
Definition rule_assigned_teacher : rule := fun u d =>
  if String.eqb (role u) "teacher" && String.eqb (type d) "class"
     && bool_decide (controller d = Some (userId u))
  then Some (Ok true) else None.
Definition rule_listed_student : rule := fun u d =>
  if String.eqb (role u) "student" && String.eqb (type d) "class"
  then match studentIds d with
       | None => Some Throw
       | Some ids => if array_includes (userId u) ids
                     then Some (Ok true) else None
       end
  else None.

Definition rules : list rule :=
  [rule_admin; rule_own_user_document; rule_teacher_grant;
   rule_assigned_teacher; rule_listed_student].

Fixpoint first_match (rs : list rule) (u : User) (d : AnyDocument)
  : result bool :=
  match rs with
  | [] => Ok false
  | r :: rest =>
      match r u d with
      | Some outcome => outcome
      | None => first_match rest u d
      end
  end.

Definition known_type (ty : string) : bool :=
  String.eqb ty "user" || String.eqb ty "teacher"
  || String.eqb ty "student" || String.eqb ty "class".

End Policy.

(** ** The filtering middleware: src/middleware/pouchFilterMiddleware.ts *)

Module Filter.
Import Json Policy.

(** How [await db.get(id)] ends: the document, or a rejection (a 404
    for a missing or deleted document, any other error otherwise). *)
Inductive lookup : Type :=
| Found (doc : AnyDocument)
| NotFound
| Unavailable.

(** The database as one batch of lookups sees it; [db.get] receives
    whatever value [change.id] holds. *)
Definition database : Type := json -> lookup.

(** [change.id]: reading a property of [null] throws, a value that is
    not an object has no [id]. *)
Definition get_id (change : json) : result (option json) :=
  match change with
  | JNull => Throw
  | JObj fields => Ok (lookup_field "id" fields)
  | _ => Ok None
  end.

(** How the [try] block of the per-line callback ends. *)
Inductive completion : Type :=
| Return (r : option string)   (* a [return] inside the block *)
| Normal                       (* control falls out of the block *)
| Thrown.                      (* an exception reaches the [catch] *)

Definition try_block (user : User) (db : database) (line : string)
  : completion :=
  match JSON_parse line with
  | None => Thrown
  | Some change =>
      match get_id change with
      | Throw => Thrown
      | Ok None => Normal
      | Ok (Some id) =>
          if truthy id then
            match db id with
            | Found doc =>
                match isUserAllowed user doc with
                | Ok true => Return (Some line)
                | Ok false => Return None
                | Throw => Thrown
                end
            | NotFound | Unavailable => Thrown
            end
          else Normal
      end
  end.

(** The callback mapped over the lines of a batch; [None] is the
    [null] that marks a line as filtered out. *)
Definition filterLine (user : User) (db : database) (line : string)
  : option string :=
  if negb (JS.truthy_string (JS.trim line)) then Some line
  else match try_block user db line with
       | Return r => r
       | Normal | Thrown => Some line
       end.

Definition newline : string := String JS.LF EmptyString.

(** What [Promise.all] resolves to: one entry per line of the batch. *)
Definition allowedLines (user : User) (db : database)
  (lines : list string) : list (option string) :=
  map (filterLine user db) lines.

(** [allowedLines.filter(line => line !== null)] *)
Definition forwarded (user : User) (db : database)
  (lines : list string) : list string :=
  omap id (allowedLines user db lines).

(** The [then] callback of [Promise.all]. *)
Definition filteredOutput (user : User) (db : database)
  (lines : list string) : string :=
  JS.join newline (forwarded user db lines) +:+ newline.

(** A chunk handed to [res.write] or [res.end]: a string or a
    [Buffer].  A string is read as the string chunk it stands for. *)
Inductive Chunk : Type :=
| Str (s : string)
| Buf (bytes : string).

Coercion Str : string >-> Chunk.

(** [chunk.toString()] *)
Definition toString (c : Chunk) : string :=
  match c with
  | Str s => s
  | Buf bytes => JS.utf8_decode bytes
  end.

(** The bytes the underlying response sends for a chunk. *)
Definition bytes_of (c : Chunk) : string :=
  match c with
  | Str s => s
  | Buf bytes => bytes
  end.

(** What reaches the underlying response object: a call and the bytes
    of its data. *)
Inductive call : Type :=
| originalWrite (data : string)
| originalEnd (chunk : option string).

(** The closure state of one intercepted response: the partial-line
    [buffer], the batches whose [Promise.all] has not resolved yet, and
    the calls made on the underlying response so far. *)
Record Response : Type := {
  buffer : string;
  pending : list (list string);
  transport : list call;
}.

Definition initial : Response :=
  {| buffer := EmptyString; pending := []; transport := [] |}.

(** The overriding [res.write]: the new state and the value returned
    to the caller. *)
Definition res_write (st : Response) (chunk : Chunk) : Response * bool :=
  let buffer' := buffer st +:+ toString chunk in
  match JS.lastIndexOf JS.LF buffer' with
  | Some boundary =>
      let lines := JS.split JS.LF (JS.substring_to boundary buffer') in
      ({| buffer := JS.substring_from (S boundary) buffer';
          pending := pending st ++ [lines];
          transport := transport st |}, true)
  | None =>
      ({| buffer := buffer';
          pending := pending st;
          transport := transport st |}, true)
  end.

(** The [Promise.all] of the [i]-th pending batch resolves, its lookups
    answered by [db]. *)
Definition settle (user : User) (i : nat) (db : database) (st : Response)
  : Response :=
  match pending st !! i with
  | Some lines =>
      {| buffer := buffer st;
         pending := delete i (pending st);
         transport :=
           transport st ++ [originalWrite (filteredOutput user db lines)] |}
  | None => st
  end.

(** The overriding [res.end]; its arguments go to the original [end]
    as they are, so a last chunk is kept as the bytes it stands for. *)
Definition res_end (st : Response) (chunk : option string) : Response :=
  let flushed :=
    if (0 <? String.length (buffer st))%nat
    then transport st ++ [originalWrite (buffer st)]
    else transport st in
  {| buffer := buffer st;
     pending := pending st;
     transport := flushed ++ [originalEnd chunk] |}.

(** What happens to an intercepted response: the database handler
    writes or ends it, or a batch of lookups completes. *)
Inductive event : Type :=
| Write (chunk : Chunk)
| End (chunk : option string)
| Settle (i : nat) (db : database).

Definition step (user : User) (st : Response) (e : event) : Response :=
  match e with
  | Write chunk => fst (res_write st chunk)
  | End chunk => res_end st chunk
  | Settle i db => settle user i db st
  end.

Definition run (user : User) (es : list event) (st : Response)
  : Response :=
  fold_left (step user) es st.

(** *** The dispatch guard *)

(** A value of [req.query]: a string, an array or a nested object. *)
Inductive qvalue : Type :=
| QStr (s : string)
| QArr (items : list qvalue)
| QObj (fields : list (string * qvalue)).

Definition truthy_query (q : option qvalue) : bool :=
  match q with
  | None => false
  | Some (QStr s) => JS.truthy_string s
  | Some _ => true
  end.

Record Request : Type := {
  path : string;
  query_feed : option qvalue;
  req_user : option User;
}.

(** What the middleware leaves behind when it calls [next()]: the
    response untouched, or its [write] and [end] overridden for a user. *)
Inductive installed : Type :=
| Untouched
| Intercepting (user : User).

Definition createPouchFilterMiddleware (req : Request) : installed :=
  match req_user req with
  | Some user =>
      if negb (JS.includes "_changes" (path req))
         || negb (truthy_query (query_feed req))
      then Untouched
      else Intercepting user
  | None => Untouched
  end.

(** The underlying writer's answer to a write: does it accept more? *)
Definition Writer : Type := list call -> Chunk -> bool.

(** [res.write] and [res.end] of a response the middleware left alone. *)
Definition plain_write (w : Writer) (st : Response) (chunk : Chunk)
  : Response * bool :=
  ({| buffer := buffer st;
      pending := pending st;
      transport := transport st ++ [originalWrite (bytes_of chunk)] |},
   w (transport st) chunk).

Definition plain_end (st : Response) (chunk : option string) : Response :=
  {| buffer := buffer st;
     pending := pending st;
     transport := transport st ++ [originalEnd chunk] |}.

(** [res.write(chunk)] as the database handler sees it behind the
    middleware. *)
Definition handler_write (req : Request) (w : Writer) (st : Response)
  (chunk : Chunk) : Response * bool :=
  match createPouchFilterMiddleware req with
  | Untouched => plain_write w st chunk
  | Intercepting _ => res_write st chunk
  end.

Definition handler_step (req : Request) (w : Writer) (st : Response)
  (e : event) : Response :=
  match createPouchFilterMiddleware req with
  | Untouched =>
      match e with
      | Write chunk => fst (plain_write w st chunk)
      | End chunk => plain_end st chunk
      | Settle _ _ => st
      end
  | Intercepting user => step user st e
  end.

Definition serve (req : Request) (w : Writer) (es : list event)
  : Response :=
  fold_left (handler_step req w) es initial.

(** *** Reading the transport *)

(** The bytes the client receives: what is written until the response
    is ended.  The underlying response discards a write that comes
    after its end. *)
Fixpoint transport_text (t : list call) : string :=
  match t with
  | [] => EmptyString
  | originalWrite data :: rest => data +:+ transport_text rest
  | originalEnd (Some data) :: _ => data
  | originalEnd None :: _ => EmptyString
  end.

Definition transport_lines (t : list call) : list string :=
  JS.split JS.LF (transport_text t).

(** A change record: a line the filter looks up, i.e. JSON with a
    truthy [id]. *)
Definition record_id (line : string) : option json :=
  match JSON_parse line with
  | Some change =>
      match get_id change with
      | Ok (Some id) => if truthy id then Some id else None
      | _ => None
      end
  | None => None
  end.

Definition is_record (line : string) : bool :=
  match record_id line with Some _ => true | None => false end.

Definition records (lines : list string) : list string :=
  filter (fun line => is_record line = true) lines.

(** The [deleted] flag of a change record. *)
Definition deleted_flag (line : string) : bool :=
  match JSON_parse line with
  | Some (JObj fields) =>
      match lookup_field "deleted" fields with
      | Some v => truthy v
      | None => false
      end
  | _ => false
  end.

Definition integer (v : json) : option Z :=
  match v with
  | JNum m e => if (0 <=? e)%Z then Some (m * 10 ^ e)%Z else None
  | _ => None
  end.

(** The sequence token a feed line carries: [seq] on a change record,
    [last_seq] on the terminator. *)
Definition sequence_of (line : string) : option Z :=
  match JSON_parse line with
  | Some (JObj fields) =>
      match lookup_field "seq" fields with
      | Some v => integer v
      | None =>
          match lookup_field "last_seq" fields with
          | Some v => integer v
          | None => None
          end
      end
  | _ => None
  end.

(** Modelled from the spec: the session cursor [lastForwardedSequence].
    The middleware keeps no cursor of its own; the replicating client
    resumes from the last sequence token it received, which is what
    this reads off the transport. *)
Definition lastForwardedSequence (t : list call) : option Z :=
  last (omap sequence_of (transport_lines t)).

(** *** Reading a session

    The calls a handler's writes and ends amount to on a response
    nobody intercepts. *)
Definition calls_of (es : list event) : list call :=
  omap (fun e =>
          match e with
          | Write chunk => Some (originalWrite (bytes_of chunk))
          | End chunk => Some (originalEnd chunk)
          | Settle _ _ => None
          end) es.

(** The text the handler has written so far, as [res.write] reads it:
    each chunk through its own [toString()]. *)
Fixpoint source_text (es : list event) : string :=
  match es with
  | [] => EmptyString
  | Write chunk :: rest => toString chunk +:+ source_text rest
  | _ :: rest => source_text rest
  end.

(** The bytes the handler has written so far. *)
Fixpoint source_bytes (es : list event) : string :=
  match es with
  | [] => EmptyString
  | Write chunk :: rest => bytes_of chunk +:+ source_bytes rest
  | _ :: rest => source_bytes rest
  end.

(** A chunk whose [toString()] is the chunk's own bytes: a string, or a
    buffer that holds well-formed UTF-8 from its first byte to its
    last. *)
Definition reads_as_written (c : Chunk) : Prop :=
  toString c = bytes_of c.

(** The handler writes only such chunks. *)
Definition writes_text (e : event) : Prop :=
  match e with
  | Write chunk => reads_as_written chunk
  | _ => True
  end.

(** The response has not been ended. *)
Definition before_end (e : event) : Prop :=
  match e with
  | End _ => False
  | _ => True
  end.

(** Every lookup of the session is answered by a database of this
    kind. *)
Definition settles_against (P : database -> Prop) (e : event) : Prop :=
  match e with
  | Settle _ db => P db
  | _ => True
  end.

(** Lookups complete in the order their batches were issued. *)
Definition in_order (e : event) : Prop :=
  match e with
  | Write _ => True
  | Settle i _ => i = 0
  | End _ => False
  end.

(** The writes that batches settled in this order, each against its
    database, leave on the transport. *)
Definition writes_of (user : User)
  (settled : list (list string * database)) : list call :=
  map (fun '(lines, db) => originalWrite (filteredOutput user db lines))
    settled.

(** Writing JSON text in examples: every apostrophe stands for a
    double quote. *)
Fixpoint text (s : string) : string :=
  match s with
  | EmptyString => EmptyString
  | String "'" r => String "034" (text r)
  | String c r => String c (text r)
  end.

End Filter.


(** ** JavaScript objects read and built by the handlers *)

Module Objects.
Import Json.

(** An object as its members in the order they were written; of two
    members with one name the later wins, as in an object literal. *)
Definition object : Type := list (string * json).

(** [o[key]]; [None] is [undefined]. *)
Definition prop (o : object) (key : string) : option json :=
  lookup_field key o.

(** [!!o[key]] *)
Definition truthy_prop (o : object) (key : string) : bool :=
  match prop o key with
  | Some v => truthy v
  | None => false
  end.

(** [o[key] === s] for a string [s]. *)
Definition prop_is (o : object) (key s : string) : bool :=
  match prop o key with
  | Some (JStr t) => String.eqb t s
  | _ => false
  end.

(** [a || b] on a property that may be absent. *)
Definition or_else (v : option json) (d : json) : json :=
  match v with
  | Some x => if truthy x then x else d
  | None => d
  end.

End Objects.

(** ** The token check: src/middleware/authMiddleware.ts *)

Module Auth.
Import Policy.

(** The middleware either answers itself or calls [next()] with
    [req.user] set. *)
Inductive outcome : Type :=
| Respond (status : nat) (error : string)
| CallNext (user : User).

(** [verify] stands for [jwt.verify(token, JWT_SECRET)]; [None] when it
    throws. *)
Definition authMiddleware (verify : string -> option User)
  (authorization : option string) : outcome :=
  match authorization with
  | None => Respond 401 "Unauthorized: No token provided"
  | Some authHeader =>
      if negb (JS.truthy_string authHeader)
         || negb (String.prefix "Bearer " authHeader)
      then Respond 401 "Unauthorized: No token provided"
      else
        match JS.split " " authHeader !! 1 with
        | Some token =>
            match verify token with
            | Some decoded => CallNext decoded
            | None => Respond 401 "Unauthorized: Invalid token"
            end
        | None => Respond 401 "Unauthorized: Invalid token"
        end
  end.

(** The header the client sends: [`Bearer ${authToken}`]. *)
Definition bearer (authToken : string) : string := "Bearer " +:+ authToken.

End Auth.

(** ** The sync endpoint: authMiddleware, then the filter, then the
    database handler *)

Module SyncEndpoint.
Import Policy Filter Auth.

(** What becomes of a request to [/db]: refused before the database
    handler runs, or handed to it with the response as the filter left
    it. *)
Inductive routed : Type :=
| Refused (status : nat) (error : string)
| Handled (response : installed).

Definition db_route (verify : string -> option User)
  (authorization : option string) (req_path : string)
  (feed : option qvalue) : routed :=
  match authMiddleware verify authorization with
  | Respond status error => Refused status error
  | CallNext user =>
      Handled (createPouchFilterMiddleware
                 {| path := req_path; query_feed := feed;
                    req_user := Some user |})
  end.

(** The database-per-user guard of the alternative sync endpoint:
    [true] when the request is refused with 403. *)
Definition user_database_forbidden (user : option User) (dbname : string)
  : bool :=
  match user with
  | None => true
  | Some u => negb (String.eqb dbname ("userdb-" +:+ username u))
  end.

End SyncEndpoint.

(** ** The CouchDB write validator of the design document [_design/auth] *)

Module Couch.
Import Json Objects.

Record userCtx : Type := {
  name : option string;       (* [null] for an anonymous user *)
  roles : list string;
}.

(** The function returns, or throws [{forbidden: ...}] or
    [{unauthorized: ...}]. *)
Inductive verdict : Type :=
| Accepted
| Forbidden (message : string)
| Unauthorized (message : string).

(** [roles.indexOf(r) !== -1] *)
Definition has_role (ctx : userCtx) (r : string) : bool :=
  existsb (String.eqb r) (roles ctx).

(** [required(field, message)]: [Some] of what it throws. *)
Definition required (newDoc : object) (field : string)
  (message : option string) : option verdict :=
  if negb (truthy_prop newDoc field)
  then Some (Forbidden
               (match message with
                | Some m => if JS.truthy_string m then m
                            else "Document must have a " +:+ field
                | None => "Document must have a " +:+ field
                end))
  else None.

(** [userCtx.name === newDoc.username] *)
Definition name_is (ctx : userCtx) (v : option json) : bool :=
  match name ctx, v with
  | Some n, Some (JStr s) => String.eqb n s
  | None, Some JNull => true
  | _, _ => false
  end.

Definition validate_doc_update (newDoc : object) (oldDoc : option object)
  (ctx : userCtx) (secObj : object) : verdict :=
  (* Admins can do anything *)
  if has_role ctx "_admin" then Accepted
  (* Allow users to delete documents *)
  else if truthy_prop newDoc "_deleted" then Accepted
  else
    match required newDoc "type" None with
    | Some thrown => thrown
    | None =>
        if prop_is newDoc "type" "user" then
          if negb (name_is ctx (prop newDoc "username"))
          then Unauthorized
                 "You can only create or edit your own user document."
          else Accepted
        else if prop_is newDoc "type" "student" then
          if negb (has_role ctx "teacher")
          then Unauthorized "Only a teacher can create or edit a student."
          else Accepted
        else if prop_is newDoc "type" "class" then
          if negb (has_role ctx "teacher")
          then Unauthorized "Only a teacher can create or edit a class."
          else Accepted
        else Accepted
    end.

End Couch.

(** ** The REST routers: src/routes *)

Module Rest.
Import Json Policy Objects.

(** [arr.filter(p)] with a callback that may throw. *)
Fixpoint filter_throwing {A} (p : A -> result bool) (l : list A)
  : result (list A) :=
  match l with
  | [] => Ok []
  | x :: rest =>
      match p x with
      | Throw => Throw
      | Ok b =>
          match filter_throwing p rest with
          | Throw => Throw
          | Ok kept => Ok (if b then x :: kept else kept)
          end
      end
  end.

(** [doc.studentIds.includes(userId)] *)
Definition lists_student (userId : string) (doc : AnyDocument)
  : result bool :=
  match studentIds doc with
  | None => Throw
  | Some ids => Ok (array_includes userId ids)
  end.

Definition is_type (ty : string) (doc : AnyDocument) : bool :=
  String.eqb (type doc) ty.

Definition teaches (userId : string) (doc : AnyDocument) : bool :=
  bool_decide (teacherId doc = Some userId).

Definition own (userId : string) (doc : AnyDocument) : bool :=
  String.eqb (_id doc) userId.

(** GET /api/classes: [finalDocs], or [Throw] for the 500 of the catch. *)
Definition list_classes (user : User) (allClasses : list AnyDocument)
  : result (list AnyDocument) :=
  if String.eqb (role user) "teacher" then
    Ok (List.filter (teaches (userId user)) allClasses)
  else if String.eqb (role user) "student" then
    filter_throwing (lists_student (userId user)) allClasses
  else if String.eqb (role user) "admin" then Ok allClasses
  else Ok [].

(** [teacherClasses.forEach(c => c.studentIds.forEach(id => set.add(id)))] *)
Fixpoint collect_students (classes : list AnyDocument) (acc : gset string)
  : result (gset string) :=
  match classes with
  | [] => Ok acc
  | classDoc :: rest =>
      match studentIds classDoc with
      | None => Throw
      | Some ids => collect_students rest (acc ∪ list_to_set ids)
      end
  end.

(** GET /api/students *)
Definition list_students (user : User) (allRelevantDocs : list AnyDocument)
  : result (list AnyDocument) :=
  let allStudents := List.filter (is_type "student") allRelevantDocs in
  if String.eqb (role user) "student" then
    Ok (List.filter (own (userId user)) allStudents)
  else if String.eqb (role user) "teacher" then
    let teacherClasses :=
      List.filter (fun d => is_type "class" d && teaches (userId user) d)
        allRelevantDocs in
    match collect_students teacherClasses ∅ with
    | Throw => Throw
    | Ok studentIds =>
        Ok (List.filter (fun doc => bool_decide (_id doc ∈ studentIds))
              allStudents)
    end
  else if String.eqb (role user) "admin" then Ok allStudents
  else Ok [].

(** GET /api/teachers *)
Definition list_teachers (user : User) (allRelevantDocs : list AnyDocument)
  : result (list AnyDocument) :=
  let allTeachers := List.filter (is_type "teacher") allRelevantDocs in
  if String.eqb (role user) "teacher" then
    Ok (List.filter (own (userId user)) allTeachers)
  else if String.eqb (role user) "student" then
    match
      filter_throwing
        (fun d => if is_type "class" d then lists_student (userId user) d
                  else Ok false)
        allRelevantDocs
    with
    | Throw => Throw
    | Ok studentClasses =>
        let teacherIds : gset string :=
          list_to_set (omap teacherId studentClasses) in
        Ok (List.filter (fun doc => bool_decide (_id doc ∈ teacherIds))
              allTeachers)
    end
  else if String.eqb (role user) "admin" then Ok allTeachers
  else Ok [].

(** What a write handler does once its document is fetched: answers
    403, or hands a document to the database. *)
Inductive write : Type :=
| Forbidden403
| Store (doc : object).

(** [{ ...req.body, type: type, createdAt: now }] *)
Definition newDoc (body : object) (ty now : string) : object :=
  body ++ [("type", JStr ty); ("createdAt", JStr now)].

(** [{ ...doc, ...req.body, updatedAt: now }] *)
Definition updatedDoc (doc body : object) (now : string) : object :=
  doc ++ body ++ [("updatedAt", JStr now)].

(** PUT /api/users/:id and PUT /api/teachers/:id *)
Definition put_profile (user : User) (doc body : object) (now : string)
  : write :=
  if negb (String.eqb (role user) "admin")
     && negb (prop_is doc "_id" (userId user))
  then Forbidden403
  else Store (updatedDoc doc body now).

(** PUT /api/classes/:id *)
Definition put_class (user : User) (doc body : object) (now : string)
  : write :=
  if negb (String.eqb (role user) "admin")
     && negb (prop_is doc "teacherId" (userId user))
  then Forbidden403
  else Store (updatedDoc doc body now).

(** PUT /api/docs/:id of the plain server:
    [{ ...req.body, _id: doc._id, _rev: doc._rev, updatedAt: now }] for a
    stored document with the given [_id] and [_rev]. *)
Definition replacedDoc (body : object) (doc_id doc_rev : json)
  (now : string) : object :=
  body ++ [("_id", doc_id); ("_rev", doc_rev); ("updatedAt", JStr now)].

(** *** Login: src/routes/auth.ts *)

(** The payload signed into the token. *)
Record Payload : Type := {
  p_userId : option json;
  p_username : option json;
  p_role : json;
}.

Definition payload_of (userDoc : object) : Payload :=
  {| p_userId := prop userDoc "_id";
     p_username := prop userDoc "username";
     p_role := or_else (prop userDoc "role") (JStr "student") |}.

(** The user document created for an unknown username. *)
Definition newUser (username password : string) : object :=
  let role := if String.prefix "teacher" username
              then "teacher" else "student" in
  [("_id", JStr ("user_" +:+ username)); ("type", JStr "user");
   ("username", JStr username); ("password", JStr password);
   ("role", JStr role)].

Inductive login_response : Type :=
| Status400
| Status500
| LoggedIn (payload : Payload) (created : option object).

(** POST /api/auth/login with string credentials.  [db_get] is
    [db.get], [None] when it rejects; [db_put] tells whether [db.put]
    of the new user succeeds. *)
Definition login (db_get : string -> option object)
  (db_put : object -> bool) (username password : option string)
  : login_response :=
  match username, password with
  | Some u, Some p =>
      if negb (JS.truthy_string u) || negb (JS.truthy_string p)
      then Status400
      else
        match db_get ("user_" +:+ u) with
        | Some userDoc => LoggedIn (payload_of userDoc) None
        | None =>
            if db_put (newUser u p)
            then LoggedIn (payload_of (newUser u p)) (Some (newUser u p))
            else Status500
        end
  | _, _ => Status400
  end.

(** [req.user] as the routes and the policy type it: the payload when
    its three fields are strings. *)
Definition user_of_payload (p : Payload) : option User :=
  match p_userId p, p_username p, p_role p with
  | Some (JStr i), Some (JStr n), JStr r =>
      Some {| userId := i; username := n; role := r |}
  | _, _, _ => None
  end.

End Rest.

(** ** Reading a session, continued *)

Module Session.
Import Filter.

(** The text of a batch written back whole, and of a run of batches. *)
Definition block (lines : list string) : string :=
  JS.join newline lines +:+ newline.

Fixpoint blocks (batches : list (list string)) : string :=
  match batches with
  | [] => EmptyString
  | b :: rest => block b +:+ blocks rest
  end.

(** The lines a batch adds to what the client has received: the lines
    it keeps, or one empty line when it keeps none, since the batch is
    written with its closing newline all the same. *)
Definition written_lines (kept : list string) : list string :=
  match kept with
  | [] => [EmptyString]
  | _ :: _ => kept
  end.


End Session.

(** ** Sample principals, documents and feed lines *)

Module Examples.
Import Json Policy Filter.

Definition pupil : User :=
  {| userId := "user_ann"; username := "ann"; role := "student" |}.
Definition admin : User :=
  {| userId := "user_root"; username := "root"; role := "admin" |}.

(** A class whose [teacherId] names the student [pupil]. *)
Definition class_led_by_pupil : AnyDocument :=
  {| type := "class"; _id := "class_1";
     teacherId := Some "user_ann"; studentIds := Some [] |}.
(** A class stored without [studentIds]. *)
Definition class_without_roster : AnyDocument :=
  {| type := "class"; _id := "class_2";
     teacherId := Some "user_tom"; studentIds := None |}.
Definition invoice : AnyDocument :=
  {| type := "invoice"; _id := "inv_1";
     teacherId := None; studentIds := None |}.

(** The teacher of the worked scenario, the class assigned to that
    teacher, and a student document. *)
Definition teacher : User :=
  {| userId := "user_teacher_pat"; username := "teacher_pat";
     role := "teacher" |}.
Definition class_C : AnyDocument :=
  {| type := "class"; _id := "class_C";
     teacherId := Some "user_teacher_pat";
     studentIds := Some ["user_ann"] |}.
Definition student_Q : AnyDocument :=
  {| type := "student"; _id := "student_Q";
     teacherId := None; studentIds := None |}.
(** [class_C] after it was deleted and put again for another teacher. *)
Definition class_C_reassigned : AnyDocument :=
  {| type := "class"; _id := "class_C";
     teacherId := Some "user_teacher_kim"; studentIds := Some [] |}.

(** The database while [class_C] exists, after it was deleted, and
    after it was put again. *)
Definition db_before : database := fun id =>
  match id with
  | JStr "class_C" => Found class_C
  | JStr "student_Q" => Found student_Q
  | _ => NotFound
  end.
Definition db_after : database := fun id =>
  match id with
  | JStr "student_Q" => Found student_Q
  | _ => NotFound
  end.
Definition db_recreated : database := fun id =>
  match id with
  | JStr "class_C" => Found class_C_reassigned
  | JStr "student_Q" => Found student_Q
  | _ => NotFound
  end.
(** A database whose every lookup fails. *)
Definition db_down : database := fun _ => Unavailable.

(** Three lines of a continuous feed. *)
Definition seq1 : string :=
  text "{'seq':1,'id':'class_C','changes':[{'rev':'1-a'}]}".
Definition seq2 : string :=
  text "{'seq':2,'id':'student_Q','changes':[{'rev':'1-b'}]}".
Definition seq3 : string :=
  text "{'seq':3,'id':'class_C','changes':[{'rev':'2-c'}],'deleted':true}".
Definition terminator : string := text "{'last_seq':3}".

(** The session of the worked scenario: each line arrives as its own
    chunk and its lookup completes before the next one arrives; the
    class is deleted before the third lookup. *)
Definition scenario : list event :=
  [Write (seq1 +:+ newline); Settle 0 db_before;
   Write (seq2 +:+ newline); Settle 0 db_before;
   Write (seq3 +:+ newline); Settle 0 db_after].

(** [class_C] is forwarded, then deleted and put again for another
    teacher before the lookup of its deletion record runs. *)
Definition recreation_session : list event :=
  [Write (seq1 +:+ newline); Settle 0 db_before;
   Write (seq3 +:+ newline); Settle 0 db_recreated].

(** [class_C] was forwarded; the chunk with its deletion record is
    written and its lookup has not completed. *)
Definition deletion_pending : list event :=
  [Write (seq1 +:+ newline); Settle 0 db_before;
   Write (seq3 +:+ newline)].

(** Two chunks; the lookup of the second completes first. *)
Definition overtaking_session : list event :=
  [Write (seq1 +:+ newline); Write (seq2 +:+ newline);
   Settle 1 db_before; Settle 0 db_before].

(** A record that [pupil] is denied, alone in its chunk. *)
Definition lone_denied_session : list event :=
  [Write (seq2 +:+ newline); Settle 0 db_before].

(** A heartbeat, a record that [pupil] is denied and the terminator in
    one chunk, its lookups not completed. *)
Definition framed_pending : list event :=
  [Write (newline +:+ seq2 +:+ newline +:+ terminator +:+ newline)].

(** The three lines of the scenario cut into chunks inside the lines;
    the class is deleted before the last lookups run. *)
Definition scenario_rechunked : list event :=
  [Write (seq1 +:+ newline +:+ "{");
   Write (JS.substring_from 1 seq2 +:+ newline +:+ seq3);
   Settle 0 db_before; Write newline; Settle 0 db_after;
   Settle 0 db_after].

(** A writer that never accepts more. *)
Definition refusing : Writer := fun _ _ => false.

(** A continuous [_changes] request of [pupil], and a document read. *)
Definition changes_request : Request :=
  {| path := "/school-data-shared/_changes";
     query_feed := Some (QStr "continuous");
     req_user := Some pupil |}.
Definition document_request : Request :=
  {| path := "/school-data-shared/student_Q";
     query_feed := None;
     req_user := Some pupil |}.

(** A verifier that knows one token. *)
Definition verify_ann (token : string) : option User :=
  if String.eqb token "tok123" then Some pupil else None.

(** The student record whose [_id] is the identity of [pupil], the
    profile of [teacher], and what the student and teacher routes fetch. *)
Definition student_ann : AnyDocument :=
  {| type := "student"; _id := "user_ann";
     teacherId := None; studentIds := None |}.
Definition teacher_pat : AnyDocument :=
  {| type := "teacher"; _id := "user_teacher_pat";
     teacherId := None; studentIds := None |}.
Definition school : list AnyDocument :=
  [class_C; student_ann; student_Q; teacher_pat].

(** The user document the login route stores for [ann], a request body
    that names a role, and the user store after the body was applied. *)
Definition ann_user_doc : Objects.object :=
  [("_id", JStr "user_ann"); ("type", JStr "user");
   ("username", JStr "ann"); ("password", JStr "secret");
   ("role", JStr "student"); ("_rev", JStr "1-abc")].
Definition make_admin_body : Objects.object := [("role", JStr "admin")].
Definition users_before (id : string) : option Objects.object :=
  if String.eqb id "user_ann" then Some ann_user_doc else None.
Definition users_after (id : string) : option Objects.object :=
  if String.eqb id "user_ann"
  then Some (Rest.updatedDoc ann_user_doc make_admin_body
               "2025-01-01T00:00:00.000Z")
  else None.
Definition no_users (id : string) : option Objects.object := None.
Definition put_succeeds (doc : Objects.object) : bool := true.

End Examples.


(** Case analysis on the comparisons of [x] with string literals: a
    comparison that holds replaces [x] by the literal. *)
Ltac eqb_cases x :=
  repeat match goal with
    | |- context [String.eqb x ?c] =>
        let H := fresh "E" in
        destruct (String.eqb x c) eqn:H;
        [apply String.eqb_eq in H; rewrite ?H; simpl | simpl]
    end.


(** * Properties *)

(** ** The visibility policy *)

Module PolicyFacts.
Import Policy Examples.

Lemma rule_admin_first (u : User) (d : AnyDocument) :
  role u = "admin" -> isUserAllowed u d = Ok true.
Proof. intros H. unfold isUserAllowed. by rewrite H. Qed.

Lemma teacher_sees_students (u : User) (d : AnyDocument) :
  role u = "teacher" -> type d = "student" -> isUserAllowed u d = Ok true.
Proof.
  intros Hr Ht. unfold isUserAllowed. rewrite Hr, Ht. reflexivity.
Qed.

Lemma own_id_decide (a b : string) :
  bool_decide (Some a = Some b) = String.eqb a b.
Proof.
  destruct (String.eqb a b) eqn:E.
  - apply String.eqb_eq in E. subst. by rewrite bool_decide_eq_true_2.
  - apply String.eqb_neq in E. rewrite bool_decide_eq_false_2; congruence.
Qed.

(** Where the code decides allow, so does the design's rule list: the
    role guards only ever remove grants. *)
Lemma allowed_implies_spec (u : User) (d : AnyDocument) :
  isUserAllowed u d = Ok true -> decide_spec u d = true.
Proof.
  unfold isUserAllowed, decide_spec, ownerId, blanket_grant, members,
    controller.
  eqb_cases (role u); eqb_cases (type d); try done;
    rewrite ?own_id_decide; repeat case_match; simplify_eq; try done;
    rewrite ?orb_true_r in *; simplify_eq; try done;
    simpl in *; destruct (array_includes _ _); done.
Qed.

(** Outside class documents the code and the design's list agree. *)
Lemma agrees_off_class (u : User) (d : AnyDocument) :
  type d <> "class" -> isUserAllowed u d = Ok (decide_spec u d).
Proof.
  intros Hc.
  unfold isUserAllowed, decide_spec, ownerId, blanket_grant, members,
    controller.
  eqb_cases (role u); eqb_cases (type d); try done;
    rewrite ?own_id_decide; repeat case_match; simplify_eq; done.
Qed.

(** C5, amended: [isUserAllowed] is first-match evaluation of the
    rules in the order of the code -- admin; own user document; the
    teacher grant over student and teacher documents; a teacher and the
    classes assigned to that teacher; a student and the classes whose
    [studentIds] list that student; otherwise deny. *)
Theorem isUserAllowed_first_match (u : User) (d : AnyDocument) :
  isUserAllowed u d = first_match rules u d.
Proof.
  unfold isUserAllowed, rules, first_match, rule_admin,
    rule_own_user_document, rule_teacher_grant, rule_assigned_teacher,
    rule_listed_student, blanket_grant, controller.
  eqb_cases (role u); eqb_cases (type d); try done;
    repeat case_match; simplify_eq; done.
Qed.

(** C5 as stated fails: the design's rule 4 grants a class to whoever
    its controller field names, the code only to a teacher; and on a
    class document without [studentIds] the code reaches no decision to
    compare. *)
Lemma isUserAllowed_differs_from_spec :
  decide_spec pupil class_led_by_pupil = true
  /\ isUserAllowed pupil class_led_by_pupil = Ok false
  /\ isUserAllowed pupil class_led_by_pupil
     <> Ok (decide_spec pupil class_led_by_pupil)
  /\ isUserAllowed pupil class_without_roster
     <> Ok (decide_spec pupil class_without_roster).
Proof.
  split; [reflexivity|]. split; [reflexivity|].
  split; vm_compute; discriminate.
Qed.

(** C6, amended: [isUserAllowed] returns a decision unless a student
    meets a class document without [studentIds]; on a document of
    unknown type that decision is deny, except for an admin, whom
    rule 1 allows everything. *)
Theorem isUserAllowed_total (u : User) (d : AnyDocument) :
  is_Some (studentIds d) \/ ~ (role u = "student" /\ type d = "class") ->
  exists b : bool,
    isUserAllowed u d = Ok b
    /\ (known_type (type d) = false ->
        b = bool_decide (role u = "admin")).
Proof.
  intros Hok.
  destruct (decide (role u = "admin")) as [Ha|Ha].
  { exists true. rewrite rule_admin_first by done.
    by rewrite bool_decide_eq_true_2. }
  rewrite (bool_decide_eq_false_2 _ Ha).
  apply String.eqb_neq in Ha.
  unfold isUserAllowed, known_type. rewrite Ha.
  eqb_cases (type d); eqb_cases (role u);
    repeat case_match; simplify_eq;
    try (eexists; split; [reflexivity|]; done).
  exfalso. destruct Hok as [[? ?]|Hn]; [done|]. by apply Hn.
Qed.

Lemma isUserAllowed_total_witness :
  exists b : bool,
    isUserAllowed pupil invoice = Ok b
    /\ b = bool_decide (role pupil = "admin").
Proof.
  destruct (isUserAllowed_total pupil invoice) as (b & Hb & Hunknown).
  - right. intros [_ H]. discriminate H.
  - exists b. split; [exact Hb|]. apply Hunknown. reflexivity.
Defined.

(** C6 as stated fails twice over: the policy throws on a class
    document without [studentIds], and an admin is allowed a document
    of unknown type. *)
Lemma isUserAllowed_not_total :
  isUserAllowed pupil class_without_roster = Throw
  /\ known_type (type invoice) = false
  /\ isUserAllowed admin invoice = Ok true.
Proof. repeat split. Qed.

End PolicyFacts.

(** ** Splitting and joining lines *)

Module JSFacts.
Import JS.

Lemma split_nonempty (c : ascii) (s : string) :
  exists p ps, split c s = p :: ps.
Proof.
  destruct s as [|a r]; simpl; [by eauto|].
  destruct (Ascii.eqb a c); [by eauto|].
  destruct (split c r); eauto.
Qed.

Lemma lastIndexOf_None_cons (c a : ascii) (r : string) :
  lastIndexOf c (String a r) = None <->
  Ascii.eqb a c = false /\ lastIndexOf c r = None.
Proof.
  simpl. destruct (lastIndexOf c r); [by split; [|intros [_ ?]]|].
  destruct (Ascii.eqb a c); by split; [|intros [? _]].
Qed.

(** A string without the separator is a single piece. *)
Lemma split_no_sep (c : ascii) (s : string) :
  lastIndexOf c s = None -> split c s = [s].
Proof.
  induction s as [|a r IH]; [done|].
  intros [Ha Hr]%lastIndexOf_None_cons. simpl.
  rewrite Ha, (IH Hr). done.
Qed.

(** No piece contains the separator. *)
Lemma split_pieces_no_sep (c : ascii) (s p : string) :
  p ∈ split c s -> lastIndexOf c p = None.
Proof.
  revert p. induction s as [|a r IH]; intros p; simpl.
  - by intros ->%list_elem_of_singleton.
  - destruct (Ascii.eqb a c) eqn:Ha.
    + intros [->|?]%elem_of_cons; [done|by apply IH].
    + destruct (split_nonempty c r) as (h & t & Hs).
      rewrite Hs in IH |- *.
      intros [->|?]%elem_of_cons.
      * apply lastIndexOf_None_cons. split; [done|].
        apply IH. by left.
      * apply IH. by right.
Qed.

(** Splitting distributes over a separator. *)
Lemma split_app_sep (c : ascii) (a b : string) :
  split c (a +:+ String c b) = split c a ++ split c b.
Proof.
  induction a as [|x r IH]; simpl.
  - by rewrite Ascii.eqb_refl.
  - rewrite IH. destruct (Ascii.eqb x c); [done|].
    destruct (split_nonempty c r) as (h & t & ->). done.
Qed.

(** Text appended to [a] continues the last piece of [a]. *)
Lemma split_app_last (c : ascii) (a b : string) p l :
  split c a = p ++ [l] -> split c (a +:+ b) = p ++ split c (l +:+ b).
Proof.
  revert p l. induction a as [|x r IH]; intros p l; simpl.
  - destruct p as [|? [|]]; simpl; intros; simplify_eq. done.
  - destruct (Ascii.eqb x c) eqn:Hx.
    + destruct p as [|p0 p']; simpl; intros Hs; simplify_eq.
      * destruct (split_nonempty c r) as (? & ? & ?). congruence.
      * rewrite (IH p' l) by done. done.
    + destruct (split_nonempty c r) as (h & t & Hr). rewrite Hr.
      destruct p as [|p0 p']; simpl; intros Hs; simplify_eq.
      * rewrite (IH [] h) by done. simpl. rewrite Hx. done.
      * rewrite (IH (h :: p') l) by done. done.
Qed.

Lemma lastIndexOf_Some (c : ascii) (s : string) (b : nat) :
  lastIndexOf c s = Some b ->
  s = substring_to b s +:+ String c (substring_from (S b) s)
  /\ lastIndexOf c (substring_from (S b) s) = None.
Proof.
  revert b. induction s as [|a r IH]; intros b; [done|]. simpl.
  destruct (lastIndexOf c r) as [i|] eqn:Hr.
  - intros [= <-]. destruct (IH i eq_refl) as [Heq Hno].
    split; [|exact Hno].
    change (String a r = String a (substring_to i r +:+ String c (substring_from (S i) r))).
    by rewrite <- Heq.
  - destruct (Ascii.eqb a c) eqn:Ha; [|done].
    intros [= <-]. apply Ascii.eqb_eq in Ha. subst a.
    simpl. split; [done|]. by destruct r.
Qed.

(** The lines cut off at the last newline, followed by the remainder,
    are the pieces of the whole text. *)
Lemma split_at_boundary (c : ascii) (s : string) (b : nat) :
  lastIndexOf c s = Some b ->
  split c s = split c (substring_to b s) ++ [substring_from (S b) s].
Proof.
  intros Hb. destruct (lastIndexOf_Some _ _ _ Hb) as [Heq Hno].
  rewrite Heq at 1. rewrite split_app_sep. by rewrite (split_no_sep _ _ Hno).
Qed.

Lemma append_assoc (a b c : string) : (a +:+ b) +:+ c = a +:+ (b +:+ c).
Proof.
  induction a as [|x r IH]; [done|].
  change (String x ((r +:+ b) +:+ c) = String x (r +:+ b +:+ c)).
  by rewrite IH.
Qed.

Lemma append_nil_r (a : string) : a +:+ EmptyString = a.
Proof.
  induction a as [|x r IH]; [done|].
  change (String x (r +:+ EmptyString) = String x r). by rewrite IH.
Qed.

(** A block of separator-free lines, joined and terminated, splits
    back into those lines. *)
Lemma split_join_lines (c : ascii) (ks : list string) (rest : string) :
  Forall (fun k => lastIndexOf c k = None) ks -> ks <> [] ->
  split c (join (String c EmptyString) ks +:+ String c rest)
  = ks ++ split c rest.
Proof.
  induction 1 as [|k ks Hk Hks IH]; [done|]. intros _.
  destruct ks as [|k' ks'].
  - simpl. by rewrite split_app_sep, (split_no_sep _ _ Hk).
  - change (join (String c EmptyString) (k :: k' :: ks'))
      with (k +:+ String c EmptyString
              +:+ join (String c EmptyString) (k' :: ks')).
    rewrite !append_assoc.
    change (String c EmptyString +:+ ?x) with (String c x).
    rewrite split_app_sep, (split_no_sep _ _ Hk), IH by done. done.
Qed.

Lemma lastIndexOf_app (c : ascii) (a b : string) (i : nat) :
  lastIndexOf c b = Some i ->
  lastIndexOf c (a +:+ b) = Some (String.length a + i).
Proof.
  intros Hb. induction a as [|x r IH]; simpl; [done|]. by rewrite IH.
Qed.

End JSFacts.

(** ** The recursion budget of the parser *)

Module ParserFacts.
Import Json.

Lemma skip_ws_length (s : string) :
  String.length (skip_ws s) <= String.length s.
Proof.
  induction s as [|c r IH]; [done|].
  simpl. destruct (is_json_ws c); simpl; lia.
Qed.

Lemma cons_to_Some {A} (x : string) (o : option (string * A)) str (a : A) :
  cons_to x o = Some (str, a) -> exists str', o = Some (str', a).
Proof. destruct o as [[t b]|]; simpl; [|done]. intros [= _ ->]. eauto. Qed.

Lemma parse_string_body_length_le (n : nat) :
  forall s str r,
    String.length s <= n ->
    parse_string_body s = Some (str, r) ->
    String.length r < String.length s.
Proof.
  induction n as [|n IH]; intros s str r Hn Hp.
  - destruct s; [done|simpl in Hn; lia].
  - destruct s as [|c s1]; [done|].
    simpl in Hp.
    repeat case_match; simplify_eq; cbn [String.length] in *; try lia;
      repeat match goal with
        | H : cons_to _ _ = Some _ |- _ => apply cons_to_Some in H as (? & H)
        end;
      match goal with
      | H : parse_string_body _ = Some _ |- _ =>
          apply IH in H; cbn [String.length] in *; lia
      end.
Qed.

Lemma parse_string_body_length (s str r : string) :
  parse_string_body s = Some (str, r) ->
  String.length r < String.length s.
Proof. by apply (parse_string_body_length_le (String.length s)). Qed.

Lemma take_digits_length (s ds r : string) :
  take_digits s = (ds, r) ->
  String.length r <= String.length s
  /\ (ds <> EmptyString -> String.length r < String.length s).
Proof.
  revert ds r. induction s as [|c s IH]; intros ds r; simpl.
  - intros [= <- <-]. split; [done|congruence].
  - destruct (is_digit c).
    + destruct (take_digits s) as [ds' r'] eqn:Hd. intros [= <- <-].
      destruct (IH ds' r' eq_refl) as [Hle _]. split; intros; lia.
    + intros [= <- <-]. split; [done|congruence].
Qed.

Lemma parse_unsigned_length (s r : string) (m e : Z) :
  parse_unsigned s = Some (m, e, r) ->
  String.length r < String.length s.
Proof.
  unfold parse_unsigned.
  destruct (parse_int s) as [[ids r1]|] eqn:Hi; [|done].
  destruct (parse_frac r1) as [[fds r2]|] eqn:Hf; [|done].
  destruct (parse_exp r2) as [[e' r3]|] eqn:He; [|done].
  intros [= _ _ <-].
  assert (String.length r1 < String.length s).
  { unfold parse_int in Hi. destruct s as [|c s']; [done|].
    destruct (Ascii.eqb c "0"); [simplify_eq; simpl; lia|].
    destruct (is_digit c) eqn:Hc; [|done]. simplify_eq.
    destruct (take_digits_length _ _ _ Hi) as [_ Hlt]. apply Hlt.
    simpl in Hi. rewrite Hc in Hi. destruct (take_digits s').
    by simplify_eq. }
  assert (String.length r2 <= String.length r1).
  { unfold parse_frac in Hf. destruct r1 as [|c r1']; [by simplify_eq|].
    destruct (Ascii.eqb c "."); [|by simplify_eq].
    destruct (take_digits r1') as [fds' rest] eqn:Hd.
    apply take_digits_length in Hd as [? _].
    destruct fds'; simplify_eq. simpl. lia. }
  assert (String.length r3 <= String.length r2).
  { unfold parse_exp in He. destruct r2 as [|c r2']; [by simplify_eq|].
    destruct (Ascii.eqb c "e" || Ascii.eqb c "E"); [|by simplify_eq].
    destruct (parse_sign r2') as [neg r'] eqn:Hs.
    assert (String.length r' <= String.length r2').
    { unfold parse_sign in Hs. destruct r2' as [|c' r'']; [by simplify_eq|].
      repeat case_match; simplify_eq; simpl; lia. }
    destruct (take_digits r') as [eds rest] eqn:Hd.
    apply take_digits_length in Hd as [? _].
    destruct eds; simplify_eq. simpl. lia. }
  lia.
Qed.

Lemma parse_number_length (s r : string) (v : json) :
  parse_number s = Some (v, r) ->
  String.length r < String.length s.
Proof.
  unfold parse_number. destruct s as [|c s']; [done|].
  destruct (Ascii.eqb c "-").
  - destruct (parse_unsigned s') as [[[m e] rest]|] eqn:Hp; [|done].
    intros [= _ <-]. apply parse_unsigned_length in Hp. simpl. lia.
  - destruct (parse_unsigned (String c s')) as [[[m e] rest]|] eqn:Hp;
      [|done].
    intros [= _ <-]. by apply parse_unsigned_length in Hp.
Qed.

Lemma strip_prefix_length (p s r : string) :
  strip_prefix p s = Some r ->
  String.length r + String.length p = String.length s.
Proof.
  revert s. induction p as [|a p IH]; intros s; simpl.
  - intros [= ->]. lia.
  - destruct s as [|b s]; [done|]. destruct (Ascii.eqb a b); [|done].
    intros H%IH. simpl. lia.
Qed.

Lemma parse_atom_ok (s r : string) (v : json) :
  parse_atom s = POk v r -> String.length r < String.length s.
Proof.
  unfold parse_atom.
  destruct (strip_prefix "true" s) eqn:H1.
  { intros [= _ <-]. apply strip_prefix_length in H1. simpl in H1. lia. }
  destruct (strip_prefix "false" s) eqn:H2.
  { intros [= _ <-]. apply strip_prefix_length in H2. simpl in H2. lia. }
  destruct (strip_prefix "null" s) eqn:H3.
  { intros [= _ <-]. apply strip_prefix_length in H3. simpl in H3. lia. }
  destruct (parse_number s) as [[v' r']|] eqn:Hn; simpl; [|done].
  intros [= _ <-]. by apply parse_number_length in Hn.
Qed.

Lemma parse_atom_no_fuel (s : string) : parse_atom s <> PFuel.
Proof.
  unfold parse_atom. repeat case_match; try done.
  by destruct (parse_number s) as [[? ?]|].
Qed.


(** Reading the head of the input after white space. *)
Ltac skip_head s c r H :=
  let E := fresh "E" in
  pose proof (skip_ws_length s) as H;
  destruct (skip_ws s) as [|c r] eqn:E; [try done|];
  cbn [String.length] in H.

(** A parser that succeeds consumes input. *)
Lemma parse_shrinks (fuel : nat) :
  (forall s v r, parse_value fuel s = POk v r ->
                 String.length r < String.length s)
  /\ (forall s acc v r, parse_elements fuel s acc = POk v r ->
                        String.length r < String.length s)
  /\ (forall s acc v r, parse_members fuel s acc = POk v r ->
                        String.length r < String.length s).
Proof.
  induction fuel as [|fuel (IHv & IHe & IHm)]; [done|].
  split; [|split].
  - intros s v r. cbn [parse_value].
    skip_head s c s1 Hs.
    destruct (Ascii.eqb c "{").
    { skip_head s1 c' s2 Hs1.
      destruct (Ascii.eqb c' "}"); [intros [= _ <-]; lia|].
      intros H%IHm. lia. }
    destruct (Ascii.eqb c "[").
    { skip_head s1 c' s2 Hs1.
      destruct (Ascii.eqb c' "]"); [intros [= _ <-]; lia|].
      intros H%IHe. lia. }
    destruct (Ascii.eqb c quote).
    { destruct (parse_string_body s1) as [[str r']|] eqn:Hb; [|done].
      intros [= _ <-]. apply parse_string_body_length in Hb. lia. }
    intros H%parse_atom_ok. cbn [String.length] in H. lia.
  - intros s acc v r. cbn [parse_elements].
    destruct (parse_value fuel s) as [v1 r1| |] eqn:Hv; [|done..].
    apply IHv in Hv.
    skip_head r1 c r2 Hr.
    destruct (Ascii.eqb c ","); [intros H%IHe; lia|].
    destruct (Ascii.eqb c "]"); [|done]. intros [= _ <-]. lia.
  - intros s acc v r. cbn [parse_members].
    skip_head s c s1 Hs.
    destruct (Ascii.eqb c quote); [|done].
    destruct (parse_string_body s1) as [[key r1]|] eqn:Hb; [|done].
    apply parse_string_body_length in Hb.
    skip_head r1 c1 r2 Hr1.
    destruct (Ascii.eqb c1 ":"); [|done].
    destruct (parse_value fuel r2) as [v1 r3| |] eqn:Hv; [|done..].
    apply IHv in Hv.
    skip_head r3 c3 r4 Hr3.
    destruct (Ascii.eqb c3 ","); [intros H%IHm; lia|].
    destruct (Ascii.eqb c3 "}"); [|done]. intros [= _ <-]. lia.
Qed.

(** With a budget of more than twice the length of the input the
    parser never runs out of it. *)
Lemma parse_budget (fuel : nat) :
  (forall s, 2 * String.length s < fuel -> parse_value fuel s <> PFuel)
  /\ (forall s acc, 2 * String.length s + 1 < fuel ->
                    parse_elements fuel s acc <> PFuel)
  /\ (forall s acc, 2 * String.length s + 1 < fuel ->
                    parse_members fuel s acc <> PFuel).
Proof.
  induction fuel as [|fuel (IHv & IHe & IHm)]; [by repeat split; lia|].
  pose proof (parse_shrinks fuel) as (Sv & Se & Sm).
  split; [|split].
  - intros s Hf. cbn [parse_value].
    skip_head s c s1 Hs.
    destruct (Ascii.eqb c "{").
    { skip_head s1 c' s2 Hs1.
      destruct (Ascii.eqb c' "}"); [done|]. apply IHm. lia. }
    destruct (Ascii.eqb c "[").
    { skip_head s1 c' s2 Hs1.
      destruct (Ascii.eqb c' "]"); [done|]. apply IHe. lia. }
    destruct (Ascii.eqb c quote).
    { by destruct (parse_string_body s1) as [[str r']|]. }
    apply parse_atom_no_fuel.
  - intros s acc Hf. cbn [parse_elements].
    destruct (parse_value fuel s) as [v1 r1| |] eqn:Hv; [|done|].
    + apply Sv in Hv.
      skip_head r1 c r2 Hr.
      destruct (Ascii.eqb c ","); [apply IHe; lia|].
      by destruct (Ascii.eqb c "]").
    + exfalso. revert Hv. apply IHv. lia.
  - intros s acc Hf. cbn [parse_members].
    skip_head s c s1 Hs.
    destruct (Ascii.eqb c quote); [|done].
    destruct (parse_string_body s1) as [[key r1]|] eqn:Hb; [|done].
    apply parse_string_body_length in Hb.
    skip_head r1 c1 r2 Hr1.
    destruct (Ascii.eqb c1 ":"); [|done].
    destruct (parse_value fuel r2) as [v1 r3| |] eqn:Hv; [|done|].
    + apply Sv in Hv.
      skip_head r3 c3 r4 Hr3.
      destruct (Ascii.eqb c3 ","); [apply IHm; lia|].
      by destruct (Ascii.eqb c3 "}").
    + exfalso. revert Hv. apply IHv. lia.
Qed.

(** [JSON_parse] never fails for lack of budget: [None] is a syntax
    error. *)
Lemma JSON_parse_budget (text : string) :
  parse_value (S (2 * String.length text)) text <> PFuel.
Proof. apply parse_budget. lia. Qed.

End ParserFacts.

(** ** The per-line filter *)

Module LineFacts.
Import Json Policy Filter.

(** A line that [trim] empties does not parse: [JSON.parse] skips only
    space, tab, line feed and carriage return, and no value starts with
    another white-space byte. *)
Lemma blank_not_json_fuel (line : string) :
  JS.trimStart (JS.trimStart line) = EmptyString ->
  forall fuel v rest, parse_value fuel line <> POk v rest.
Proof.
  induction line as [|c r IH]; intros Hb fuel v rest.
  - destruct fuel; simpl; discriminate.
  - destruct fuel as [|fuel]; [simpl; discriminate|].
    destruct c as [[] [] [] [] [] [] [] []];
      try (simpl in Hb; discriminate Hb);
      try (simpl; discriminate);
      try (specialize (IH Hb (S fuel) v rest); exact IH).
Qed.

Lemma trimEnd_empty (s : string) :
  JS.trimEnd s = EmptyString -> JS.trimStart s = EmptyString.
Proof.
  destruct s as [|a r]; [done|].
  unfold JS.trimEnd; fold JS.trimEnd.
  by destruct (JS.trimStart (String a r)).
Qed.

Lemma blank_not_json (line : string) :
  JS.truthy_string (JS.trim line) = false -> JSON_parse line = None.
Proof.
  intros Hb. unfold JSON_parse.
  destruct (parse_value _ line) as [v rest| |] eqn:Hp; [|done..].
  exfalso. revert Hp. apply blank_not_json_fuel.
  apply trimEnd_empty. unfold JS.trim in Hb.
  by destruct (JS.trimEnd _).
Qed.

Lemma record_not_blank (line : string) (id : json) :
  record_id line = Some id -> JS.truthy_string (JS.trim line) = true.
Proof.
  intros Hr. destruct (JS.truthy_string _) eqn:Hb; [done|].
  apply blank_not_json in Hb. unfold record_id in Hr.
  by rewrite Hb in Hr.
Qed.

(** The callback in one equation: a line is dropped exactly when it is
    a change record, its document is found, and the policy returns
    [false]; every other line comes back as it is. *)
Lemma filterLine_spec (user : User) (db : database) (line : string) :
  filterLine user db line =
    match record_id line with
    | Some id =>
        match db id with
        | Found doc =>
            match isUserAllowed user doc with
            | Ok false => None
            | Ok true | Throw => Some line
            end
        | NotFound | Unavailable => Some line
        end
    | None => Some line
    end.
Proof.
  unfold filterLine.
  destruct (JS.truthy_string (JS.trim line)) eqn:Hb; simpl.
  - unfold try_block, record_id.
    destruct (JSON_parse line) as [change|]; [|done].
    destruct (get_id change) as [[id|]|]; [|done..].
    destruct (truthy id); [|done].
    destruct (db id) as [doc| |]; [|done..].
    by destruct (isUserAllowed user doc) as [[]|].
  - apply blank_not_json in Hb. unfold record_id. by rewrite Hb.
Qed.

Lemma filterLine_cases (user : User) (db : database) (line : string) :
  filterLine user db line = Some line \/ filterLine user db line = None.
Proof. rewrite filterLine_spec. repeat case_match; auto. Qed.

(** The forwarded lines of a batch are those the callback kept, in
    their order. *)
Lemma forwarded_nil (user : User) (db : database) :
  forwarded user db [] = [].
Proof. done. Qed.

Lemma forwarded_cons (user : User) (db : database) line lines :
  forwarded user db (line :: lines) =
    match filterLine user db line with
    | Some _ => line :: forwarded user db lines
    | None => forwarded user db lines
    end.
Proof.
  unfold forwarded, allowedLines. simpl.
  by destruct (filterLine_cases user db line) as [-> | ->].
Qed.

Lemma forwarded_app (user : User) (db : database) l1 l2 :
  forwarded user db (l1 ++ l2) = forwarded user db l1 ++ forwarded user db l2.
Proof.
  unfold forwarded, allowedLines. by rewrite map_app, omap_app.
Qed.

Lemma forwarded_sublist (user : User) (db : database) lines :
  forwarded user db lines `sublist_of` lines.
Proof.
  induction lines as [|line lines IH]; [done|].
  rewrite forwarded_cons. destruct (filterLine user db line).
  - by apply sublist_skip.
  - by apply sublist_cons.
Qed.

Lemma elem_of_forwarded (user : User) (db : database) lines x :
  x ∈ forwarded user db lines <->
  x ∈ lines /\ filterLine user db x = Some x.
Proof.
  induction lines as [|line lines IH].
  - rewrite forwarded_nil. split; [by intros ?%elem_of_nil|by intros [?%elem_of_nil _]].
  - rewrite forwarded_cons.
    destruct (filterLine_cases user db line) as [E|E]; rewrite E.
    + rewrite !elem_of_cons, IH. split.
      * intros [->|[? ?]]; auto.
      * intros [[->|?] ?]; auto.
    + rewrite elem_of_cons, IH. split.
      * intros [? ?]; auto.
      * intros [[->|?] ?]; [congruence|done].
Qed.

End LineFacts.

(** ** The session: writes, completions and the end of the response *)

Module SessionFacts.
Import Json Policy Filter Examples LineFacts.

(** *** Non-leakage (C1) *)

(** On the write path a record whose document is found and denied is
    never among the forwarded lines of its batch. *)
Lemma write_path_drops_denied (user : User) (db : database)
  (lines : list string) (line : string) (id : json) (doc : AnyDocument) :
  record_id line = Some id -> db id = Found doc ->
  isUserAllowed user doc = Ok false ->
  line ∉ forwarded user db lines.
Proof.
  intros Hid Hdb Hdeny [_ Hkeep]%elem_of_forwarded.
  rewrite filterLine_spec, Hid, Hdb, Hdeny in Hkeep. done.
Qed.

Lemma res_end_flush (st : Response) (chunk : option string) :
  buffer st <> EmptyString ->
  transport (res_end st chunk) =
    transport st ++ [originalWrite (buffer st); originalEnd chunk].
Proof.
  intros Hb. unfold res_end. simpl.
  destruct (buffer st); [done|]. simpl. by rewrite <- app_assoc.
Qed.

(** C1: the change line of [student_Q], a document the policy denies
    to [pupil] and which the write path drops, reaches the transport
    when it is the unterminated remainder flushed by [res.end], and
    also when the handler passes it to [res.end] as the final chunk. *)
Theorem end_flush_leaks_denied_record :
  record_id seq2 = Some (JStr "student_Q")
  /\ db_before (JStr "student_Q") = Found student_Q
  /\ isUserAllowed pupil student_Q = Ok false
  /\ filterLine pupil db_before seq2 = None
  /\ transport (run pupil [Write seq2; End None] initial)
     = [originalWrite seq2; originalEnd None]
  /\ transport (run pupil [End (Some (seq2 +:+ newline))] initial)
     = [originalEnd (Some (seq2 +:+ newline))].
Proof. repeat split; vm_compute; reflexivity. Qed.

(** *** Lookup failure (C2) *)

(** Whatever makes [db.get] reject lands in the [catch] and the line is
    forwarded. *)
Lemma lookup_failure_forwards (user : User) (db : database)
  (line : string) (id : json) :
  record_id line = Some id ->
  db id = NotFound \/ db id = Unavailable ->
  filterLine user db line = Some line.
Proof.
  intros Hid Hdb. rewrite filterLine_spec, Hid.
  by destruct Hdb as [-> | ->].
Qed.

(** C2: with every lookup failing, the change line of [student_Q] is
    written to the transport, and no retry takes place -- the batch is
    settled by the one round of lookups. *)
Theorem lookup_failure_is_forwarded :
  record_id seq2 = Some (JStr "student_Q")
  /\ db_down (JStr "student_Q") = Unavailable
  /\ transport
       (run pupil [Write (seq2 +:+ newline); Settle 0 db_down] initial)
     = [originalWrite (seq2 +:+ newline)].
Proof. repeat split; vm_compute; reflexivity. Qed.

(** *** Deletions (C3) *)

(** C3 as stated fails: [class_C] was forwarded to its teacher, then
    deleted and put again for another teacher before the lookup of the
    deletion record ran; the lookup succeeds, the policy denies, and
    the deletion record is dropped. *)
Lemma deletion_dropped_when_lookup_succeeds :
  deleted_flag seq3 = true
  /\ record_id seq3 = record_id seq1
  /\ transport (run teacher (take 2 recreation_session) initial)
     = [originalWrite (seq1 +:+ newline)]
  /\ db_recreated (JStr "class_C") = Found class_C_reassigned
  /\ transport (run teacher recreation_session initial)
     = [originalWrite (seq1 +:+ newline); originalWrite newline]
  /\ seq3 ∉ transport_lines
              (transport (run teacher recreation_session initial)).
Proof.
  repeat split; try (vm_compute; reflexivity).
  vm_compute transport_lines.
  intros H. repeat (apply elem_of_cons in H as [H|H]; [discriminate H|]).
  by apply elem_of_nil in H.
Qed.

(** *** The worked scenario (C7) *)

(** C7 as stated fails: the output is not the two records [seq1] and
    [seq3]; the student record [seq2] is on the transport. *)
Lemma scenario_forwards_student_record :
  records (transport_lines (transport (run teacher scenario initial)))
  <> [seq1; seq3]
  /\ seq2 ∈ transport_lines (transport (run teacher scenario initial)).
Proof.
  split.
  - vm_compute. discriminate.
  - vm_compute transport_lines. apply elem_of_cons. right.
    apply elem_of_cons. by left.
Qed.

End SessionFacts.

(** ** The dispatch guard and the writer's signal *)

Module DispatchFacts.
Import Json Policy Filter Examples JSFacts.

(** The guard in one equivalence. *)
Lemma intercepting_iff (req : Request) (user : User) :
  createPouchFilterMiddleware req = Intercepting user <->
  JS.includes "_changes" (path req) = true
  /\ truthy_query (query_feed req) = true
  /\ req_user req = Some user.
Proof.
  unfold createPouchFilterMiddleware.
  destruct (req_user req) as [u|]; [|by split; [|intros (_ & _ & ?)]].
  destruct (JS.includes "_changes" (path req)),
    (truthy_query (query_feed req)); simpl; split;
    try done; try (by intros (? & ? & ?)).
  - by intros [= ->].
  - by intros (_ & _ & [= ->]).
Qed.

Lemma untouched_transport (req : Request) (w : Writer)
  (es : list event) (st : Response) :
  createPouchFilterMiddleware req = Untouched ->
  transport (fold_left (handler_step req w) es st)
  = transport st ++ calls_of es.
Proof.
  intros Hm. revert st. induction es as [|e es IH]; intros st; simpl.
  - by rewrite app_nil_r.
  - rewrite IH. unfold handler_step. rewrite Hm.
    destruct e; simpl; by rewrite <- ?app_assoc.
Qed.

(** C10: the middleware overrides the response only for a request
    whose path contains [_changes], that carries a [feed] parameter
    and has a user attached; on every other request the handler's
    writes and ends reach the underlying response as they are, and a
    write returns the writer's own answer. *)
Theorem filter_scope (req : Request) :
  (forall user, createPouchFilterMiddleware req = Intercepting user ->
     JS.includes "_changes" (path req) = true
     /\ is_Some (query_feed req)
     /\ req_user req = Some user)
  /\ (~ (JS.includes "_changes" (path req) = true
         /\ is_Some (query_feed req)
         /\ is_Some (req_user req)) ->
      createPouchFilterMiddleware req = Untouched
      /\ (forall (w : Writer) (es : list event),
            transport (serve req w es) = calls_of es)
      /\ (forall (w : Writer) (st : Response) (chunk : Chunk),
            handler_write req w st chunk = plain_write w st chunk)).
Proof.
  split.
  - intros user (Hp & Hq & Hu)%intercepting_iff. repeat split; [done| |done].
    destruct (query_feed req); [by eexists|done].
  - intros Hno.
    assert (Hm : createPouchFilterMiddleware req = Untouched).
    { destruct (createPouchFilterMiddleware req) as [|user] eqn:Hm; [done|].
      apply intercepting_iff in Hm as (Hp & Hq & Hu).
      destruct Hno. repeat split; [done| |by eexists].
      destruct (query_feed req); [by eexists|done]. }
    repeat split; [done| |].
    + intros w es. unfold serve. by rewrite untouched_transport.
    + intros w st chunk. unfold handler_write. by rewrite Hm.
Qed.

Lemma filter_scope_witness :
  createPouchFilterMiddleware document_request = Untouched
  /\ transport (serve document_request refusing [Write seq2; End None])
     = [originalWrite seq2; originalEnd None]
  /\ handler_write document_request refusing initial seq2
     = plain_write refusing initial seq2.
Proof.
  destruct (proj2 (filter_scope document_request)) as (Hm & Ht & Hw).
  - intros (_ & [q Hq] & _). discriminate Hq.
  - split; [exact Hm|]. split; [apply Ht|apply Hw].
Defined.

Lemma res_write_batches (st : Response) (chunk : Chunk) (i : nat) :
  JS.lastIndexOf JS.LF (toString chunk) = Some i ->
  length (pending (fst (res_write st chunk))) = S (length (pending st)).
Proof.
  intros Hi. unfold res_write.
  rewrite (lastIndexOf_app _ (buffer st) _ _ Hi). simpl.
  rewrite length_app. simpl. lia.
Qed.

(** C9, amended: the overriding [res.write] always returns [true] and
    hands nothing to the underlying writer before the lookups
    complete, so the writer's answer never reaches the handler; every
    chunk that carries a newline adds a pending batch, without bound. *)
Theorem write_always_reports_acceptance (req : Request) (user : User)
  (w : Writer) (st : Response) (chunk : Chunk) :
  createPouchFilterMiddleware req = Intercepting user ->
  snd (handler_write req w st chunk) = true
  /\ transport (fst (handler_write req w st chunk)) = transport st
  /\ (forall n : nat,
        length (pending (run user (replicate n (Write newline)) st))
        = length (pending st) + n).
Proof.
  intros Hm. unfold handler_write. rewrite Hm. repeat split.
  - unfold res_write. by destruct (JS.lastIndexOf _ _).
  - unfold res_write. by destruct (JS.lastIndexOf _ _).
  - intros n. revert st. induction n as [|n IH]; intros st.
    + simpl. lia.
    + change (run user (replicate (S n) (Write newline)) st)
        with (run user (replicate n (Write newline))
                (fst (res_write st newline))).
      rewrite IH, (res_write_batches st newline 0) by done. lia.
Qed.

Lemma write_always_reports_acceptance_witness :
  snd (handler_write changes_request refusing initial (seq1 +:+ newline))
  = true
  /\ transport
       (fst (handler_write changes_request refusing initial
               (seq1 +:+ newline)))
     = transport initial
  /\ length (pending (run pupil (replicate 17 (Write newline)) initial))
     = length (pending initial) + 17.
Proof.
  destruct (write_always_reports_acceptance changes_request pupil
              refusing initial (seq1 +:+ newline)) as (Hr & Ht & Hn).
  - reflexivity.
  - split; [exact Hr|]. split; [exact Ht|apply Hn].
Defined.

(** C9 as stated fails: the writer refuses every write, the handler is
    told [true] all the same, and seventeen batches wait in memory --
    more than any of the fan-outs the design names. *)
Lemma backpressure_not_propagated :
  refusing (transport initial) (seq1 +:+ newline) = false
  /\ snd (handler_write changes_request refusing initial
            (seq1 +:+ newline)) = true
  /\ length (pending (run pupil (replicate 17 (Write (seq1 +:+ newline)))
                        initial)) = 17.
Proof. repeat split; vm_compute; reflexivity. Qed.

End DispatchFacts.

(** ** Order and framing of the output *)

Module OrderFacts.
Import Json Policy Filter Examples JSFacts LineFacts.

Lemma records_app (l1 l2 : list string) :
  records (l1 ++ l2) = records l1 ++ records l2.
Proof. unfold records. apply filter_app. Qed.

Lemma records_sublist (l : list string) : records l `sublist_of` l.
Proof. unfold records. apply sublist_filter. Qed.

Lemma forwarded_no_LF (user : User) (db : database) (lines : list string) :
  Forall (fun l => JS.lastIndexOf JS.LF l = None) lines ->
  Forall (fun l => JS.lastIndexOf JS.LF l = None) (forwarded user db lines).
Proof.
  rewrite !Forall_forall. intros H x [Hx _]%elem_of_forwarded. by apply H.
Qed.

Lemma filteredOutput_text (user : User) (db : database) lines rest :
  filteredOutput user db lines +:+ rest
  = JS.join newline (forwarded user db lines) +:+ String JS.LF rest.
Proof. unfold filteredOutput, newline. by rewrite append_assoc. Qed.

(** The record lines of the text a run of settled batches writes are
    the record lines each batch forwards, batch after batch. *)
Lemma records_of_writes (user : User)
  (settled : list (list string * database)) :
  Forall (fun l => JS.lastIndexOf JS.LF l = None) (concat (settled.*1)) ->
  records (transport_lines (writes_of user settled))
  = concat (map (fun '(lines, db) => records (forwarded user db lines))
              settled).
Proof.
  unfold transport_lines.
  induction settled as [|[lines db] settled IH]; intros Hno.
  - reflexivity.
  - simpl in Hno. apply Forall_app in Hno as [Hlines Hrest].
    change (transport_text (writes_of user ((lines, db) :: settled)))
      with (filteredOutput user db lines
              +:+ transport_text (writes_of user settled)).
    rewrite filteredOutput_text.
    destruct (forwarded user db lines) as [|k ks] eqn:Hf.
    + change (JS.join newline [] +:+ ?x) with x.
      change (JS.split JS.LF (String JS.LF ?x))
        with (EmptyString :: JS.split JS.LF x).
      change (records (EmptyString :: ?x)) with (records x).
      rewrite IH by done. simpl. by rewrite Hf.
    + rewrite split_join_lines, records_app, IH; [| done | | done].
      * simpl. by rewrite Hf.
      * rewrite <- Hf. by apply forwarded_no_LF.
Qed.

Lemma forwarded_records_sublist (user : User)
  (settled : list (list string * database)) :
  concat (map (fun '(lines, db) => records (forwarded user db lines))
            settled)
  `sublist_of` concat (settled.*1).
Proof.
  induction settled as [|[lines db] settled IH]; simpl; [done|].
  apply sublist_app; [|done].
  etrans; [apply records_sublist|apply forwarded_sublist].
Qed.

(** While lookups complete in the order of their batches, the transport
    holds the output of the settled batches and the source text splits
    into the settled lines, the pending lines and the buffer. *)
Lemma in_order_invariant (user : User) (es : list event) :
  forall (st : Response) (src : string)
         (settled : list (list string * database)),
  transport st = writes_of user settled ->
  JS.split JS.LF src
  = concat (settled.*1) ++ concat (pending st) ++ [buffer st] ->
  Forall in_order es ->
  exists settled',
    transport (run user es st) = writes_of user settled'
    /\ JS.split JS.LF (src +:+ source_text es)
       = concat (settled'.*1) ++ concat (pending (run user es st))
         ++ [buffer (run user es st)].
Proof.
  induction es as [|e es IH]; intros st src settled Ht Hs Hord.
  - exists settled. simpl. by rewrite append_nil_r.
  - apply Forall_cons in Hord as [He Hes].
    destruct e as [chunk| |i db]; simpl in He; [|done|subst i].
    + change (source_text (Write chunk :: es))
        with (toString chunk +:+ source_text es).
      rewrite <- append_assoc.
      apply (IH (fst (res_write st chunk)) (src +:+ toString chunk) settled);
        [| |done].
      * unfold res_write. by destruct (JS.lastIndexOf _ _).
      * rewrite app_assoc in Hs.
        rewrite (split_app_last _ _ (toString chunk) _ _ Hs).
        unfold res_write.
        destruct (JS.lastIndexOf JS.LF (buffer st +:+ toString chunk))
          as [b|] eqn:Hb; simpl.
        -- rewrite (split_at_boundary _ _ _ Hb).
           rewrite concat_app. simpl. rewrite app_nil_r.
           by rewrite <- !app_assoc.
        -- rewrite (split_no_sep _ _ Hb). by rewrite <- app_assoc.
    + change (run user (Settle 0 db :: es) st)
        with (run user es (settle user 0 db st)).
      change (source_text (Settle 0 db :: es)) with (source_text es).
      unfold settle.
      destruct (pending st) as [|lines rest] eqn:Hp; simpl.
      * apply (IH st src settled); [done| |done]. by rewrite Hp.
      * apply (IH _ src (settled ++ [(lines, db)])); simpl; [| |done].
        -- rewrite Ht. unfold writes_of. by rewrite map_app.
        -- rewrite Hs, fmap_app, concat_app. simpl.
           by rewrite app_nil_r, <- !app_assoc.
Qed.

(** C4, amended: the lines a batch forwards keep the order they have
    in the batch, and while the batches' lookups complete in the order
    the batches were issued, the change records on the transport are a
    subsequence of the lines the handler wrote. *)
Theorem in_order_completion_preserves_order (user : User)
  (es : list event) :
  Forall in_order es ->
  (forall (db : database) (lines : list string),
      forwarded user db lines `sublist_of` lines)
  /\ records (transport_lines (transport (run user es initial)))
     `sublist_of` JS.split JS.LF (source_text es).
Proof.
  intros Hord. split; [intros; apply forwarded_sublist|].
  destruct (in_order_invariant user es initial EmptyString [])
    as (settled & Ht & Hs); [done..|].
  change (EmptyString +:+ source_text es) with (source_text es) in Hs.
  rewrite Ht, Hs, records_of_writes.
  - etrans; [apply forwarded_records_sublist|].
    by apply sublist_inserts_r.
  - apply Forall_forall. intros x Hx.
    apply (split_pieces_no_sep JS.LF (source_text es)).
    rewrite Hs. apply elem_of_app. by left.
Qed.

Lemma in_order_completion_preserves_order_witness :
  forwarded teacher db_before [seq1; seq2] `sublist_of` [seq1; seq2]
  /\ records (transport_lines (transport (run teacher scenario initial)))
     `sublist_of` JS.split JS.LF (source_text scenario).
Proof.
  destruct (in_order_completion_preserves_order teacher scenario)
    as [Hbatch Hall].
  - repeat constructor.
  - split; [apply Hbatch|exact Hall].
Defined.

Lemma no_swap {A} (a b c : A) :
  a <> b -> a <> c -> ~ [b; a] `sublist_of` [a; b; c].
Proof.
  intros Hab Hac H.
  repeat match goal with
    | H : sublist (_ :: _) (_ :: _) |- _ => inversion H; clear H; subst
    | H : sublist (_ :: _) [] |- _ => inversion H
    end; congruence.
Qed.

(** C4 as stated fails: the lookup of the second chunk completes
    first, and its record is written before the record of the first. *)
Lemma later_chunk_overtakes :
  JS.split JS.LF (source_text overtaking_session)
  = [seq1; seq2; EmptyString]
  /\ records (transport_lines
                (transport (run teacher overtaking_session initial)))
     = [seq2; seq1]
  /\ ~ records (transport_lines
                  (transport (run teacher overtaking_session initial)))
       `sublist_of` JS.split JS.LF (source_text overtaking_session).
Proof.
  assert (Hsrc : JS.split JS.LF (source_text overtaking_session)
                 = [seq1; seq2; EmptyString]) by (vm_compute; reflexivity).
  assert (Hout : records (transport_lines
                   (transport (run teacher overtaking_session initial)))
                 = [seq2; seq1]) by (vm_compute; reflexivity).
  split; [exact Hsrc|]. split; [exact Hout|].
  rewrite Hsrc, Hout. apply no_swap; vm_compute; discriminate.
Qed.

End OrderFacts.
(** ** What an open response holds, whatever the order of completion *)

Module StreamFacts.
Import Json Policy Filter Examples JSFacts LineFacts Session.

Lemma join_split (c : ascii) (s : string) :
  JS.join (String c EmptyString) (JS.split c s) = s.
Proof.
  induction s as [|a r IH]; [done|].
  cbn [JS.split]. destruct (split_nonempty c r) as (h & t & Hs).
  rewrite Hs in IH |- *.
  destruct (Ascii.eqb a c) eqn:Ha.
  - apply Ascii.eqb_eq in Ha. subst a.
    change (JS.join (String c EmptyString) (EmptyString :: h :: t))
      with (String c (JS.join (String c EmptyString) (h :: t))).
    by rewrite IH.
  - destruct t as [|t0 t'].
    + simpl in IH |- *. by rewrite IH.
    + change (JS.join (String c EmptyString) (String a h :: t0 :: t'))
        with (String a (JS.join (String c EmptyString) (h :: t0 :: t'))).
      by rewrite IH.
Qed.

Lemma blocks_app (b1 b2 : list (list string)) :
  blocks (b1 ++ b2) = blocks b1 +:+ blocks b2.
Proof.
  induction b1 as [|b b1 IH]; [done|].
  simpl. by rewrite IH, append_assoc.
Qed.

(** Writes made before the end of the response add up. *)
Lemma transport_text_writes (ws : list string) (t : list call) :
  transport_text (map originalWrite ws ++ t)
  = transport_text (map originalWrite ws) +:+ transport_text t.
Proof.
  induction ws as [|w ws IH]; [done|].
  change (w +:+ transport_text (map originalWrite ws ++ t)
          = (w +:+ transport_text (map originalWrite ws))
            +:+ transport_text t).
  by rewrite IH, append_assoc.
Qed.

Lemma written_as_writes (outs : list (list string)) :
  map (fun ls => originalWrite (block ls)) outs
  = map originalWrite (map block outs).
Proof. by rewrite map_map. Qed.

Lemma run_app (user : User) (es1 es2 : list event) (st : Response) :
  run user (es1 ++ es2) st = run user es2 (run user es1 st).
Proof. unfold run. apply fold_left_app. Qed.

(** The lines of the text that writing back these batches of kept
    lines leaves on the transport. *)
Lemma lines_of_blocks (outs : list (list string)) :
  Forall (Forall (fun l => JS.lastIndexOf JS.LF l = None)) outs ->
  JS.split JS.LF
    (transport_text (map (fun ls => originalWrite (block ls)) outs))
  = concat (map written_lines outs) ++ [EmptyString].
Proof.
  induction 1 as [|ls outs Hls _ IH]; [done|].
  change (transport_text
            (map (fun ls => originalWrite (block ls)) (ls :: outs)))
    with (block ls
          +:+ transport_text
                (map (fun ls => originalWrite (block ls)) outs)).
  unfold block at 1, newline. rewrite append_assoc.
  change (String JS.LF EmptyString +:+ ?x) with (String JS.LF x).
  destruct ls as [|k ks].
  - change (JS.join _ [] +:+ ?x) with x.
    change (JS.split JS.LF (String JS.LF ?x))
      with (EmptyString :: JS.split JS.LF x).
    by rewrite IH.
  - rewrite split_join_lines by done. rewrite IH.
    cbn [map concat written_lines]. by rewrite <- app_assoc.
Qed.

Lemma elem_of_written_lines (kept : list string) (line : string) :
  line ∈ written_lines kept -> line = EmptyString \/ line ∈ kept.
Proof.
  destruct kept as [|k ks]; [|by right].
  intros ->%list_elem_of_singleton. by left.
Qed.

(** The invariant of a response that has not been ended: the text read
    so far splits into complete lines and the buffer, and the pending
    batches and the batches written back consist of complete lines. *)
Lemma open_invariant (user : User) (es : list event) :
  Forall before_end es ->
  forall (st : Response) (src : string) (pre : list string)
         (outs : list (list string)),
  JS.split JS.LF src = pre ++ [buffer st] ->
  (forall b l, b ∈ pending st -> l ∈ b -> l ∈ pre) ->
  transport st = map (fun ls => originalWrite (block ls)) outs ->
  (forall ls l, ls ∈ outs -> l ∈ ls -> l ∈ pre) ->
  exists pre' outs',
    JS.split JS.LF (src +:+ source_text es)
    = pre' ++ [buffer (run user es st)]
    /\ (forall b l, b ∈ pending (run user es st) -> l ∈ b -> l ∈ pre')
    /\ transport (run user es st)
       = map (fun ls => originalWrite (block ls)) outs'
    /\ (forall ls l, ls ∈ outs' -> l ∈ ls -> l ∈ pre').
Proof.
  induction 1 as [|e es He _ IH]; intros st src pre outs Hs Hp Ht Ho.
  - exists pre, outs. simpl. by rewrite append_nil_r.
  - destruct e as [chunk|c|i db]; [|by destruct He|].
    + change (source_text (Write chunk :: es))
        with (toString chunk +:+ source_text es).
      rewrite <- (append_assoc src (toString chunk) (source_text es)).
      change (run user (Write chunk :: es) st)
        with (run user es (fst (res_write st chunk))).
      pose proof (split_app_last _ _ (toString chunk) _ _ Hs) as Hs'.
      unfold res_write.
      destruct (JS.lastIndexOf JS.LF (buffer st +:+ toString chunk))
        as [b|] eqn:Hb; cbn [fst].
      * rewrite (split_at_boundary _ _ _ Hb), app_assoc in Hs'.
        eapply (IH _ (src +:+ toString chunk) _ outs);
          cbn [pending transport buffer]; [exact Hs'| |done|].
        -- intros b' l [Hb'|Hb']%elem_of_app Hl.
           ++ apply elem_of_app. left. by apply (Hp b').
           ++ apply list_elem_of_singleton in Hb'. subst b'.
              apply elem_of_app. by right.
        -- intros ls l ? ?. apply elem_of_app. left. by apply (Ho ls).
      * rewrite (split_no_sep _ _ Hb) in Hs'.
        by eapply (IH _ (src +:+ toString chunk) pre outs);
          cbn [pending transport buffer]; [exact Hs'|..].
    + change (source_text (Settle i db :: es)) with (source_text es).
      change (run user (Settle i db :: es) st)
        with (run user es (settle user i db st)).
      unfold settle. destruct (pending st !! i) as [lines|] eqn:Hi.
      * eapply (IH _ src pre (outs ++ [forwarded user db lines]));
          cbn [pending transport buffer]; [exact Hs|..].
        -- intros b l Hb Hl. apply (Hp b); [|done].
           by apply (list_elem_of_delete_inv b i).
        -- rewrite Ht, map_app. done.
        -- intros ls l [?|Hls]%elem_of_app Hl; [by apply (Ho ls)|].
           apply list_elem_of_singleton in Hls. subst ls.
           apply elem_of_forwarded in Hl as [Hl _].
           apply (Hp lines); [|done].
           by apply list_elem_of_lookup_2 in Hi.
      * by apply (IH st src pre outs).
Qed.

Lemma open_response (user : User) (es : list event) :
  Forall before_end es ->
  exists pre outs,
    JS.split JS.LF (source_text es)
    = pre ++ [buffer (run user es initial)]
    /\ (forall b l, b ∈ pending (run user es initial) -> l ∈ b -> l ∈ pre)
    /\ transport (run user es initial)
       = map (fun ls => originalWrite (block ls)) outs
    /\ (forall ls l, ls ∈ outs -> l ∈ ls -> l ∈ pre).
Proof.
  intros Hes.
  destruct (open_invariant user es Hes initial EmptyString [] [])
    as (pre & outs & Hs & Hp & Ht & Ho);
    [done|by intros ? ? ?%elem_of_nil|done|by intros ? ? ?%elem_of_nil|].
  exists pre, outs. done.
Qed.

(** What the completion of a pending batch adds to the lines the client
    has received, on a response that has not been ended. *)
Lemma settle_adds (user : User) (es : list event) (i : nat)
  (db : database) (lines : list string) :
  Forall before_end es ->
  pending (run user es initial) !! i = Some lines ->
  exists received,
    transport_lines (transport (run user es initial))
    = received ++ [EmptyString]
    /\ transport_lines
         (transport (run user (es ++ [Settle i db]) initial))
       = received ++ written_lines (forwarded user db lines)
         ++ [EmptyString]
    /\ transport (run user (es ++ [Settle i db]) initial)
       = transport (run user es initial)
         ++ [originalWrite (filteredOutput user db lines)].
Proof.
  intros Hes Hi.
  destruct (open_response user es Hes) as (pre & outs & Hs & Hp & Ht & Ho).
  assert (Hpre : Forall (fun l => JS.lastIndexOf JS.LF l = None) pre).
  { apply Forall_forall. intros l Hl.
    apply (split_pieces_no_sep JS.LF (source_text es)).
    rewrite Hs. apply elem_of_app. by left. }
  assert (Houts : Forall (Forall (fun l => JS.lastIndexOf JS.LF l = None))
                    outs).
  { apply Forall_forall. intros ls Hls. apply Forall_forall. intros l Hl.
    rewrite Forall_forall in Hpre. by apply Hpre, (Ho ls). }
  assert (Hkept : Forall (fun l => JS.lastIndexOf JS.LF l = None)
                    (forwarded user db lines)).
  { apply Forall_forall. intros l [Hl _]%elem_of_forwarded.
    rewrite Forall_forall in Hpre. apply Hpre, (Hp lines); [|done].
    by apply list_elem_of_lookup_2 in Hi. }
  assert (Hafter : transport (run user (es ++ [Settle i db]) initial)
                   = transport (run user es initial)
                     ++ [originalWrite (filteredOutput user db lines)]).
  { rewrite run_app.
    change (run user [Settle i db] ?st) with (settle user i db st).
    unfold settle. by rewrite Hi. }
  exists (concat (map written_lines outs)).
  split; [|split; [|exact Hafter]].
  - unfold transport_lines. rewrite Ht. by apply lines_of_blocks.
  - unfold transport_lines. rewrite Hafter, Ht.
    change [originalWrite (filteredOutput user db lines)]
      with (map (fun ls => originalWrite (block ls))
              [forwarded user db lines]).
    rewrite <- map_app, lines_of_blocks.
    + rewrite map_app, concat_app. cbn [map concat].
      by rewrite app_nil_r, <- app_assoc.
    + apply Forall_app. split; [done|]. by constructor.
Qed.

(** X4: the filter only drops lines.  In whatever order the lookups
    complete and whatever they answer, every line on the transport of
    a response that has not been ended is empty or is a complete line
    of the text [res.write] has read -- each chunk through its own
    [toString()], which for a string chunk is the chunk itself. *)
Theorem filter_only_drops_lines (user : User) (es : list event)
  (line : string) :
  Forall before_end es ->
  line ∈ transport_lines (transport (run user es initial)) ->
  line = EmptyString \/ line ∈ JS.split JS.LF (source_text es).
Proof.
  intros Hes Hline.
  destruct (open_response user es Hes) as (pre & outs & Hs & Hp & Ht & Ho).
  unfold transport_lines in Hline. rewrite Ht, lines_of_blocks in Hline.
  - apply elem_of_app in Hline as [Hline|Hline].
    2: { left. by apply list_elem_of_singleton in Hline. }
    apply list_elem_of_In, in_concat in Hline as (ws & Hws & Hl).
    apply list_elem_of_In, list_elem_of_fmap in Hws as (ls & -> & Hls).
    apply list_elem_of_In, elem_of_written_lines in Hl as [->|Hl];
      [by left|].
    right. rewrite Hs. apply elem_of_app. left. by apply (Ho ls).
  - apply Forall_forall. intros ls Hls. apply Forall_forall. intros l Hl.
    apply (split_pieces_no_sep JS.LF (source_text es)).
    rewrite Hs. apply elem_of_app. left. by apply (Ho ls).
Qed.

Lemma filter_only_drops_lines_witness :
  seq2 = EmptyString
  \/ seq2 ∈ JS.split JS.LF (source_text overtaking_session).
Proof.
  apply (filter_only_drops_lines teacher overtaking_session seq2).
  - repeat constructor.
  - apply list_elem_of_In. vm_compute. auto.
Defined.

(** *** Sessions that keep every line *)

Lemma forwarded_all (user : User) (db : database) (lines : list string) :
  (forall l, l ∈ lines -> filterLine user db l = Some l) ->
  forwarded user db lines = lines.
Proof.
  induction lines as [|l lines IH]; intros Hk; [done|].
  rewrite forwarded_cons, (Hk l) by left.
  rewrite IH; [done|]. intros l' Hl'. apply Hk. by right.
Qed.

(** For an admin the callback keeps every line. *)
Lemma admin_keeps (user : User) (db : database) (line : string) :
  role user = "admin" -> filterLine user db line = Some line.
Proof.
  intros Hr. rewrite filterLine_spec.
  destruct (record_id line) as [id|]; [|done].
  destruct (db id) as [doc| |]; [|done..].
  by rewrite (PolicyFacts.rule_admin_first user doc Hr).
Qed.

Lemma source_text_bytes (es : list event) :
  Forall writes_text es -> source_text es = source_bytes es.
Proof.
  induction 1 as [|e es He _ IH]; [done|].
  destruct e as [chunk| |]; cbn [source_text source_bytes]; [|done..].
  cbv [writes_text reads_as_written] in He. by rewrite He, IH.
Qed.

(** While lookups complete in the order of their batches and keep
    every line of the text [W] the handler writes, the text on the
    transport, the pending batches and the buffer make up [W]. *)
Lemma faithful_invariant (user : User) (W : string) (es : list event) :
  Forall in_order es ->
  Forall (settles_against
            (fun db => forall line, line ∈ JS.split JS.LF W ->
                                    filterLine user db line = Some line))
    es ->
  forall (st : Response) (src : string) (pre ws : list string),
  src +:+ source_text es = W ->
  JS.split JS.LF src = pre ++ [buffer st] ->
  (forall b l, b ∈ pending st -> l ∈ b -> l ∈ pre) ->
  transport st = map originalWrite ws ->
  transport_text (transport st) +:+ blocks (pending st) +:+ buffer st
  = src ->
  (transport_text (transport (run user es st))
   +:+ blocks (pending (run user es st)) +:+ buffer (run user es st)
   = W)
  /\ exists pre', JS.split JS.LF W = pre' ++ [buffer (run user es st)].
Proof.
  intros Hord Hkeep. revert Hkeep.
  induction Hord as [|e es He _ IH]; intros Hkeep st src pre ws HW Hs Hp
    Ht Htext.
  - simpl in HW. rewrite append_nil_r in HW. subst src.
    split; [done|]. by exists pre.
  - apply Forall_cons in Hkeep as [Hk Hkeep].
    destruct e as [chunk| |i db]; simpl in He; [|done|subst i].
    + change (source_text (Write chunk :: es))
        with (toString chunk +:+ source_text es) in HW.
      rewrite <- (append_assoc src (toString chunk) (source_text es)) in HW.
      change (run user (Write chunk :: es) st)
        with (run user es (fst (res_write st chunk))).
      pose proof (split_app_last _ _ (toString chunk) _ _ Hs) as Hs'.
      unfold res_write.
      destruct (JS.lastIndexOf JS.LF (buffer st +:+ toString chunk))
        as [b|] eqn:Hb; cbn [fst].
      * rewrite (split_at_boundary _ _ _ Hb), app_assoc in Hs'.
        eapply (IH Hkeep _ (src +:+ toString chunk) _ ws HW);
          cbn [pending transport buffer]; [exact Hs'| |done|].
        -- intros b' l [Hb'|Hb']%elem_of_app Hl.
           ++ apply elem_of_app. left. by apply (Hp b').
           ++ apply list_elem_of_singleton in Hb'. subst b'.
              apply elem_of_app. by right.
        -- rewrite <- Htext, !append_assoc.
           destruct (lastIndexOf_Some _ _ _ Hb) as [Heq _].
           f_equal. rewrite blocks_app, append_assoc. f_equal.
           symmetry. etrans; [exact Heq|].
           change (blocks [?l]) with (block l +:+ EmptyString).
           unfold block, newline.
           by rewrite join_split, append_nil_r, append_assoc.
      * rewrite (split_no_sep _ _ Hb) in Hs'.
        eapply (IH Hkeep _ (src +:+ toString chunk) pre ws HW);
          cbn [pending transport buffer]; [exact Hs'|done|done|].
        by rewrite <- Htext, !append_assoc.
    + change (source_text (Settle 0 db :: es)) with (source_text es) in HW.
      change (run user (Settle 0 db :: es) st)
        with (run user es (settle user 0 db st)).
      unfold settle.
      destruct (pending st) as [|lines rest] eqn:Hpend.
      * change (@nil (list string) !! 0) with (@None (list string)).
        cbv iota.
        eapply (IH Hkeep st src pre ws HW); [done| |done|].
        -- by rewrite Hpend.
        -- by rewrite Hpend.
      * change ((lines :: rest) !! 0) with (Some lines).
        change (delete 0 (lines :: rest)) with rest. cbv iota.
        assert (Hall : forwarded user db lines = lines).
        { apply forwarded_all. intros l Hl. apply Hk.
          rewrite <- HW, (split_app_last _ _ (source_text es) _ _ Hs).
          apply elem_of_app. left. apply (Hp lines); [left|done]. }
        eapply (IH Hkeep _ src pre
                  (ws ++ [filteredOutput user db lines]) HW);
          cbn [pending transport buffer]; [exact Hs| | |].
        -- intros b l Hb Hl. apply (Hp b); [by right|done].
        -- by rewrite Ht, map_app.
        -- rewrite Ht, transport_text_writes, <- Htext, Ht.
           cbn [blocks]. unfold filteredOutput. rewrite Hall.
           change (transport_text [originalWrite ?x])
             with (x +:+ EmptyString).
           unfold block. by rewrite append_nil_r, !append_assoc.
Qed.

Lemma faithful_session (user : User) (es : list event) :
  Forall in_order es ->
  Forall (settles_against
            (fun db => forall line,
                 line ∈ JS.split JS.LF (source_text es) ->
                 filterLine user db line = Some line))
    es ->
  (transport_text (transport (run user es initial))
   +:+ blocks (pending (run user es initial))
   +:+ buffer (run user es initial)
   = source_text es)
  /\ exists pre, JS.split JS.LF (source_text es)
                 = pre ++ [buffer (run user es initial)].
Proof.
  intros Hord Hkeep.
  apply (faithful_invariant user (source_text es) es Hord Hkeep
           initial EmptyString [] []); try done.
  by intros ? ? ?%elem_of_nil.
Qed.

(** *** After the end *)




End StreamFacts.
(** ** Deletion records *)

Module DeletionFacts.
Import Json Policy Filter Examples JSFacts LineFacts Session StreamFacts.

Lemma elem_of_written_lines_kept (kept : list string) (line : string) :
  line ∈ kept -> line ∈ written_lines kept.
Proof. destruct kept; [by intros ?%elem_of_nil|done]. Qed.

(** C3, amended: on a response that has not been ended, once the
    lookups of its batch complete a change line carrying the [deleted]
    flag is among the lines the client has received when its lookup
    answers not-found, and when the lookup returns a document the
    policy allows; when the lookup returns a document the policy
    denies, the line is not among the lines the batch adds.  The flag
    itself is never examined. *)
Theorem deletion_forwarded_unless_denied (user : User) (es : list event)
  (i : nat) (db : database) (lines : list string) (line : string)
  (id : json) :
  Forall before_end es ->
  pending (run user es initial) !! i = Some lines ->
  line ∈ lines ->
  deleted_flag line = true -> record_id line = Some id ->
  (db id = NotFound ->
   line ∈ transport_lines
            (transport (run user (es ++ [Settle i db]) initial)))
  /\ (forall doc, db id = Found doc ->
                  isUserAllowed user doc = Ok true ->
                  line ∈ transport_lines
                           (transport
                              (run user (es ++ [Settle i db]) initial)))
  /\ (forall doc, db id = Found doc ->
                  isUserAllowed user doc = Ok false ->
                  exists received added,
                    transport_lines (transport (run user es initial))
                    = received ++ [EmptyString]
                    /\ transport_lines
                         (transport
                            (run user (es ++ [Settle i db]) initial))
                       = received ++ added ++ [EmptyString]
                    /\ line ∉ added).
Proof.
  intros Hes Hi Hin _ Hid.
  destruct (settle_adds user es i db lines Hes Hi)
    as (received & Hbefore & Hafter & _).
  assert (Hkept : filterLine user db line = Some line ->
                  line ∈ transport_lines
                           (transport
                              (run user (es ++ [Settle i db]) initial))).
  { intros Hk. rewrite Hafter. apply elem_of_app. right.
    apply elem_of_app. left. apply elem_of_written_lines_kept.
    by apply elem_of_forwarded. }
  split; [|split].
  - intros Hdb. apply Hkept. by rewrite filterLine_spec, Hid, Hdb.
  - intros doc Hdb Hok. apply Hkept.
    by rewrite filterLine_spec, Hid, Hdb, Hok.
  - intros doc Hdb Hdeny.
    exists received, (written_lines (forwarded user db lines)).
    split; [done|]. split; [done|].
    intros [->|Hf]%elem_of_written_lines.
    + vm_compute in Hid. discriminate Hid.
    + by apply (SessionFacts.write_path_drops_denied
                  user db lines line id doc).
Qed.

Lemma deletion_forwarded_unless_denied_witness :
  seq3 ∈ transport_lines
           (transport
              (run teacher (deletion_pending ++ [Settle 0 db_after])
                 initial)).
Proof.
  apply (deletion_forwarded_unless_denied teacher deletion_pending 0
           db_after [seq3] seq3 (JStr "class_C")).
  - repeat constructor.
  - vm_compute. reflexivity.
  - apply list_elem_of_singleton. reflexivity.
  - vm_compute. reflexivity.
  - vm_compute. reflexivity.
  - reflexivity.
Defined.

End DeletionFacts.
(** ** The worked scenario *)

Module ScenarioFacts.
Import Json Policy Filter Examples JSFacts LineFacts Session StreamFacts.

Lemma three_lines (l1 l2 l3 : string) :
  JS.lastIndexOf JS.LF l1 = None -> JS.lastIndexOf JS.LF l2 = None ->
  JS.lastIndexOf JS.LF l3 = None ->
  JS.split JS.LF
    (l1 +:+ newline +:+ l2 +:+ newline +:+ l3 +:+ newline)
  = [l1; l2; l3; EmptyString].
Proof.
  intros H1 H2 H3.
  assert (Hnl : forall x, newline +:+ x = String JS.LF x) by done.
  rewrite !Hnl. unfold newline. rewrite !split_app_sep.
  by rewrite (split_no_sep _ _ H1), (split_no_sep _ _ H2),
    (split_no_sep _ _ H3).
Qed.

(** What a teacher is shown of a class of their own and of a student
    document, whatever the lookup answers. *)
Lemma teacher_keeps (user : User) (db : database) (line : string)
  (id : json) :
  role user = "teacher" ->
  record_id line = Some id ->
  (forall doc, db id = Found doc ->
               (type doc = "class" /\ teacherId doc = Some (userId user))
               \/ type doc = "student") ->
  filterLine user db line = Some line.
Proof.
  intros Hrole Hid Hdb. rewrite filterLine_spec, Hid.
  destruct (db id) as [doc| |] eqn:Hfound; [|done..].
  unfold isUserAllowed. rewrite Hrole.
  destruct (Hdb doc eq_refl) as [[Hty Ht]| Hty]; rewrite Hty; cbn.
  - rewrite bool_decide_eq_true_2 by done. done.
  - done.
Qed.

(** C7, amended: for a teacher, a feed of three lines -- a record of a
    class, a record of a student document, and a second record of the
    class, its deletion -- reaches the client whole, in order and with
    the student record in it, however the handler cuts the feed into
    chunks: provided the response is not ended, every batch has
    completed, the batches complete in the order they were written, and
    every lookup of the class either fails or finds a class assigned to
    the teacher and every lookup of the student either fails or finds a
    student document.  The last sequence on the transport is that of
    the deletion record. *)
Theorem scenario_output (user : User) (es : list event)
  (l1 l2 l3 : string) (id1 id2 : json) :
  role user = "teacher" ->
  record_id l1 = Some id1 -> record_id l2 = Some id2 ->
  record_id l3 = Some id1 -> sequence_of l3 = Some 3%Z ->
  JS.lastIndexOf JS.LF l1 = None -> JS.lastIndexOf JS.LF l2 = None ->
  JS.lastIndexOf JS.LF l3 = None ->
  source_text es = l1 +:+ newline +:+ l2 +:+ newline +:+ l3 +:+ newline ->
  Forall in_order es ->
  Forall (settles_against
            (fun db =>
               (forall doc, db id1 = Found doc ->
                            type doc = "class"
                            /\ teacherId doc = Some (userId user))
               /\ (forall doc, db id2 = Found doc ->
                               type doc = "student"))) es ->
  pending (run user es initial) = [] ->
  transport_text (transport (run user es initial)) = source_text es
  /\ records (transport_lines (transport (run user es initial)))
     = [l1; l2; l3]
  /\ lastForwardedSequence (transport (run user es initial)) = Some 3%Z.
Proof.
  intros Hrole Hid1 Hid2 Hid3 Hseq H1 H2 H3 Hsrc Hord Hdbs Hdone.
  pose proof (three_lines l1 l2 l3 H1 H2 H3) as Hlines.
  rewrite <- Hsrc in Hlines.
  destruct (faithful_session user es Hord) as [Htext (pre & Hpre)].
  { eapply Forall_impl; [exact Hdbs|].
    intros [chunk|c|i db]; cbn [settles_against]; [done..|].
    intros [Hclass Hstudent] line. rewrite Hlines.
    rewrite !elem_of_cons.
    intros [->|[->|[->|[->|?%elem_of_nil]]]]; [| | |done|done].
    - apply (teacher_keeps user db l1 id1 Hrole Hid1).
      intros doc Hf. left. by apply Hclass.
    - apply (teacher_keeps user db l2 id2 Hrole Hid2).
      intros doc Hf. right. by apply Hstudent.
    - apply (teacher_keeps user db l3 id1 Hrole Hid3).
      intros doc Hf. left. by apply Hclass. }
  rewrite Hlines in Hpre.
  assert (Hbuf : buffer (run user es initial) = EmptyString).
  { change [l1; l2; l3; EmptyString]
      with ([l1; l2; l3] ++ [EmptyString]) in Hpre.
    by apply app_inj_tail in Hpre as [_ <-]. }
  rewrite Hdone, Hbuf in Htext. cbn [blocks] in Htext.
  change (EmptyString +:+ EmptyString) with EmptyString in Htext.
  rewrite append_nil_r in Htext.
  split; [exact Htext|].
  unfold lastForwardedSequence, transport_lines.
  rewrite Htext, Hlines. split.
  - unfold records. cbn [filter list_filter].
    unfold is_record.
    rewrite Hid1, Hid2, Hid3. reflexivity.
  - cbn [omap list_omap]. rewrite Hseq.
    change (sequence_of EmptyString) with (@None Z).
    by destruct (sequence_of l1), (sequence_of l2).
Qed.

Lemma scenario_output_witness :
  transport_text (transport (run teacher scenario_rechunked initial))
  = source_text scenario_rechunked
  /\ records (transport_lines
                (transport (run teacher scenario_rechunked initial)))
     = [seq1; seq2; seq3]
  /\ lastForwardedSequence
       (transport (run teacher scenario_rechunked initial)) = Some 3%Z.
Proof.
  apply (scenario_output teacher scenario_rechunked seq1 seq2 seq3
           (JStr "class_C") (JStr "student_Q"));
    try (vm_compute; reflexivity).
  - repeat constructor.
  - repeat (apply Forall_cons; split); try apply Forall_nil;
      try exact I;
      (split; intros doc H; vm_compute in H; try discriminate H;
       injection H as <-; try split; reflexivity).
Defined.

End ScenarioFacts.

(** ** Lines that are not change records *)

Module FrameFacts.
Import Json Policy Filter Examples JSFacts LineFacts Session StreamFacts.

(** Heartbeats, text that is not JSON and JSON without an [id] are not
    change records. *)
Lemma not_a_record (line : string) :
  JS.truthy_string (JS.trim line) = false
  \/ JSON_parse line = None
  \/ (exists change, JSON_parse line = Some change
                     /\ get_id change = Ok None) ->
  record_id line = None.
Proof.
  unfold record_id.
  intros [Hb%blank_not_json | [Hp | (change & Hp & Hid)]].
  - by rewrite Hb.
  - by rewrite Hp.
  - by rewrite Hp, Hid.
Qed.

Lemma forwarded_keeps (user : User) (db : database) line l1 l2 :
  filterLine user db line = Some line ->
  forwarded user db (l1 ++ line :: l2)
  = forwarded user db l1 ++ line :: forwarded user db l2.
Proof.
  intros Hk. by rewrite forwarded_app, forwarded_cons, Hk.
Qed.

Lemma forwarded_drops (user : User) (db : database) line l1 l2 :
  filterLine user db line = None ->
  forwarded user db (l1 ++ line :: l2)
  = forwarded user db l1 ++ forwarded user db l2.
Proof.
  intros Hk. by rewrite forwarded_app, forwarded_cons, Hk.
Qed.

Lemma sequences_written (kept : list string) :
  omap sequence_of (written_lines kept) = omap sequence_of kept.
Proof. by destruct kept. Qed.

(** C8, amended: on a response that has not been ended, the completion
    of a batch adds to the lines the client has received the lines the
    batch keeps, in their order -- or one empty line when it keeps
    none, the batch being written as a bare newline.  A line that is
    not a change record -- a heartbeat, text that is not JSON, JSON
    without an [id] such as the [last_seq] terminator -- is among them,
    untouched and in its place between the kept lines before and after
    it; a record whose document is found and denied is not; and the
    last sequence the client has received becomes the last one carried
    by a kept line of the batch, and stays what it was when no kept
    line carries one. *)
Theorem frame_preservation (user : User) (es : list event) (i : nat)
  (db : database) (lines : list string) :
  Forall before_end es ->
  pending (run user es initial) !! i = Some lines ->
  exists received,
    transport_lines (transport (run user es initial))
    = received ++ [EmptyString]
    /\ transport_lines
         (transport (run user (es ++ [Settle i db]) initial))
       = received ++ written_lines (forwarded user db lines)
         ++ [EmptyString]
    /\ (forall l1 line l2,
          lines = l1 ++ line :: l2 ->
          JS.truthy_string (JS.trim line) = false
          \/ JSON_parse line = None
          \/ (exists change, JSON_parse line = Some change
                             /\ get_id change = Ok None) ->
          written_lines (forwarded user db lines)
          = forwarded user db l1 ++ line :: forwarded user db l2)
    /\ (forall line id doc,
          record_id line = Some id -> db id = Found doc ->
          isUserAllowed user doc = Ok false ->
          line ∉ written_lines (forwarded user db lines))
    /\ (forwarded user db lines = [] ->
        transport (run user (es ++ [Settle i db]) initial)
        = transport (run user es initial) ++ [originalWrite newline])
    /\ lastForwardedSequence
         (transport (run user (es ++ [Settle i db]) initial))
       = match last (omap sequence_of (forwarded user db lines)) with
         | Some n => Some n
         | None => lastForwardedSequence (transport (run user es initial))
         end.
Proof.
  intros Hes Hi.
  destruct (settle_adds user es i db lines Hes Hi)
    as (received & Hbefore & Hafter & Hcall).
  exists received. split; [done|]. split; [done|].
  split; [|split; [|split]].
  - intros l1 line l2 -> Hnr%not_a_record.
    rewrite (forwarded_keeps user db line l1 l2)
      by (by rewrite filterLine_spec, Hnr).
    by destruct (forwarded user db l1).
  - intros line id doc Hid Hdb Hdeny [->|Hf]%elem_of_written_lines.
    + vm_compute in Hid. discriminate Hid.
    + by apply (SessionFacts.write_path_drops_denied
                  user db lines line id doc).
  - intros Hnone. rewrite Hcall. unfold filteredOutput. by rewrite Hnone.
  - unfold lastForwardedSequence. rewrite Hafter, Hbefore.
    rewrite !omap_app, sequences_written.
    change (omap sequence_of [EmptyString]) with (@nil Z).
    rewrite !app_nil_r, last_app.
    by destruct (last (omap sequence_of (forwarded user db lines))).
Qed.

Lemma frame_preservation_witness :
  written_lines (forwarded pupil db_before [EmptyString; seq2; terminator])
  = forwarded pupil db_before [EmptyString; seq2] ++ [terminator]
  /\ (seq2 ∉ written_lines
               (forwarded pupil db_before [EmptyString; seq2; terminator]))
  /\ lastForwardedSequence
       (transport
          (run pupil (framed_pending ++ [Settle 0 db_before]) initial))
     = Some 3%Z.
Proof.
  destruct (frame_preservation pupil framed_pending 0 db_before
              [EmptyString; seq2; terminator])
    as (received & _ & _ & Hframe & Hdenied & _ & Hcursor).
  - repeat constructor.
  - vm_compute. reflexivity.
  - split; [|split].
    + apply (Hframe [EmptyString; seq2] terminator []); [reflexivity|].
      right. right. eexists. split; vm_compute; reflexivity.
    + apply (Hdenied seq2 (JStr "student_Q") student_Q);
        vm_compute; reflexivity.
    + rewrite Hcursor. vm_compute. reflexivity.
Defined.

(** C8 as stated fails on its last clause: a denied record that is the
    last line of the feed so far still has its batch written, as a
    bare newline, and no sequence reaches the client, whose cursor
    therefore stays before the record. *)
Lemma denied_record_leaves_cursor_behind :
  filterLine pupil db_before seq2 = None
  /\ sequence_of seq2 = Some 2%Z
  /\ transport (run pupil lone_denied_session initial)
     = [originalWrite newline]
  /\ lastForwardedSequence
       (transport (run pupil lone_denied_session initial)) = None.
Proof. repeat split; vm_compute; reflexivity. Qed.

End FrameFacts.

(** ** The session, continued *)

Module SessionMore.
Import Json Policy Filter Examples JSFacts LineFacts Session StreamFacts.

Lemma writes_leave_transport (user : User) (chunks : list Chunk) :
  forall st, transport (run user (map Write chunks) st) = transport st.
Proof.
  induction chunks as [|c chunks IH]; intros st; [done|].
  change (run user (map Write (c :: chunks)) st)
    with (run user (map Write chunks) (fst (res_write st c))).
  rewrite IH. unfold res_write. by destruct (JS.lastIndexOf _ _).
Qed.

(** X1: however the handler cuts its text into chunks, the lines of the
    pending batches followed by the buffer are the lines of the text
    [res.write] has read -- each chunk through its own [toString()],
    which for a string chunk is the chunk itself -- the buffer holds no
    newline, and nothing has reached the transport before a lookup
    completes. *)
Theorem chunking_reassembles_lines (user : User) (chunks : list Chunk) :
  concat (pending (run user (map Write chunks) initial))
  ++ [buffer (run user (map Write chunks) initial)]
  = JS.split JS.LF (source_text (map Write chunks))
  /\ JS.lastIndexOf JS.LF (buffer (run user (map Write chunks) initial))
     = None
  /\ transport (run user (map Write chunks) initial) = [].
Proof.
  pose proof (writes_leave_transport user chunks initial) as Ht.
  destruct (OrderFacts.in_order_invariant user (map Write chunks)
              initial EmptyString []) as (settled & Hw & Hs); [done..| |].
  { apply Forall_forall. intros e [c [-> _]]%list_elem_of_fmap. done. }
  rewrite Ht in Hw. destruct settled as [|? ?]; [|done].
  change (EmptyString +:+ ?x) with x in Hs. simpl in Hs.
  split; [done|]. split; [|done].
  apply (split_pieces_no_sep JS.LF (source_text (map Write chunks))).
  rewrite Hs. apply elem_of_app. right. by apply list_elem_of_singleton.
Qed.

(** X2: for an admin the filter is transparent.  While the handler
    writes strings -- or buffers that are well-formed UTF-8 each on its
    own -- and lookups complete in the order of their batches, the text
    on the transport, followed by the batches still pending and the
    unterminated remainder, is what the handler wrote, byte for byte. *)
Theorem admin_stream_is_transparent (user : User) (es : list event) :
  role user = "admin" -> Forall in_order es -> Forall writes_text es ->
  transport_text (transport (run user es initial))
  +:+ blocks (pending (run user es initial))
  +:+ buffer (run user es initial)
  = source_bytes es.
Proof.
  intros Hadmin Hord Htext.
  rewrite <- (source_text_bytes es Htext).
  apply (faithful_session user es Hord).
  apply Forall_forall. intros [chunk|c|i db] _; cbn [settles_against];
    [done..|].
  intros line _. by apply admin_keeps.
Qed.

Lemma admin_stream_is_transparent_witness :
  transport_text
    (transport (run Examples.admin Examples.scenario initial))
  +:+ blocks (pending (run Examples.admin Examples.scenario initial))
  +:+ buffer (run Examples.admin Examples.scenario initial)
  = source_bytes Examples.scenario.
Proof.
  apply (admin_stream_is_transparent Examples.admin Examples.scenario).
  - reflexivity.
  - repeat constructor.
  - repeat constructor.
Defined.

(** X20: [res.write] decodes every buffer on its own: a two-byte
    character that arrives whole is kept, but when its two bytes arrive
    in two buffers each of them is read as U+FFFD, so the line in the
    buffer is no longer the line the handler wrote. *)
Theorem split_character_is_replaced (user : User) (b1 b2 : ascii) :
  (194 <= N_of_ascii b1 <= 223)%N -> (128 <= N_of_ascii b2 <= 191)%N ->
  buffer (run user [Write (Buf (String b1 (String b2 EmptyString)))]
            initial)
  = String b1 (String b2 EmptyString)
  /\ buffer (run user [Write (Buf (String b1 EmptyString));
                       Write (Buf (String b2 EmptyString))] initial)
     = JS.replacement +:+ JS.replacement
  /\ JS.replacement +:+ JS.replacement
     <> String b1 (String b2 EmptyString).
Proof.
  intros [Hlo1 Hhi1] [Hlo2 Hhi2].
  assert (Hlead : JS.lead b1
                  = (EmptyString,
                     {| JS.needed := 1; JS.seen := String b1 EmptyString;
                        JS.lower := 128; JS.upper := 191 |})).
  { unfold JS.lead. cbv zeta.
    rewrite (proj2 (N.leb_gt _ _)) by lia.
    by rewrite (proj2 (N.leb_le _ _) Hlo1), (proj2 (N.leb_le _ _) Hhi1). }
  assert (Hstray : JS.lead b2 = (JS.replacement, JS.idle)).
  { unfold JS.lead. cbv zeta.
    rewrite (proj2 (N.leb_gt (N_of_ascii b2) 127)) by lia.
    rewrite (proj2 (N.leb_gt 194 (N_of_ascii b2))) by lia.
    rewrite (proj2 (N.leb_gt 224 (N_of_ascii b2))) by lia.
    by rewrite (proj2 (N.leb_gt 240 (N_of_ascii b2))) by lia. }
  assert (Hwhole : JS.utf8_decode (String b1 (String b2 EmptyString))
                   = String b1 (String b2 EmptyString)).
  { unfold JS.utf8_decode. cbn [JS.decode].
    change (JS.decode_byte JS.idle b1) with (JS.lead b1).
    rewrite Hlead. cbn [fst snd]. unfold JS.decode_byte.
    cbn [JS.needed JS.lower JS.upper JS.seen].
    by rewrite (proj2 (N.leb_le _ _) Hlo2), (proj2 (N.leb_le _ _) Hhi2). }
  assert (Hfirst : JS.utf8_decode (String b1 EmptyString)
                   = JS.replacement).
  { unfold JS.utf8_decode. cbn [JS.decode].
    change (JS.decode_byte JS.idle b1) with (JS.lead b1).
    by rewrite Hlead. }
  assert (Hsecond : JS.utf8_decode (String b2 EmptyString)
                    = JS.replacement).
  { unfold JS.utf8_decode. cbn [JS.decode].
    change (JS.decode_byte JS.idle b2) with (JS.lead b2).
    by rewrite Hstray. }
  split; [|split].
  - cbn [run fold_left step]. unfold res_write.
    cbn [toString buffer initial]. rewrite Hwhole.
    change (EmptyString +:+ ?x) with x.
    assert (Hnl : JS.lastIndexOf JS.LF (String b1 (String b2 EmptyString))
                  = None).
    { cbn [JS.lastIndexOf].
      destruct (Ascii.eqb b1 JS.LF) eqn:E1.
      { apply Ascii.eqb_eq in E1. subst b1. vm_compute in Hlo1.
        by destruct Hlo1. }
      destruct (Ascii.eqb b2 JS.LF) eqn:E2.
      { apply Ascii.eqb_eq in E2. subst b2. vm_compute in Hlo2.
        by destruct Hlo2. }
      done. }
    by rewrite Hnl.
  - cbn [run fold_left step]. unfold res_write.
    cbn [toString buffer initial]. rewrite Hfirst.
    change (EmptyString +:+ ?x) with x.
    change (JS.lastIndexOf JS.LF JS.replacement) with (@None nat).
    cbn [fst buffer toString]. rewrite Hsecond.
    change (JS.lastIndexOf JS.LF (JS.replacement +:+ JS.replacement))
      with (@None nat).
    done.
  - intros H. vm_compute in H. discriminate H.
Qed.

Lemma split_character_is_replaced_witness :
  buffer (run pupil [Write (Buf (String (ascii_of_nat 195)
                                   (String (ascii_of_nat 169) EmptyString)))]
            initial)
  = String (ascii_of_nat 195) (String (ascii_of_nat 169) EmptyString)
  /\ buffer (run pupil
               [Write (Buf (String (ascii_of_nat 195) EmptyString));
                Write (Buf (String (ascii_of_nat 169) EmptyString))]
               initial)
     = JS.replacement +:+ JS.replacement
  /\ JS.replacement +:+ JS.replacement
     <> String (ascii_of_nat 195) (String (ascii_of_nat 169) EmptyString).
Proof.
  apply (split_character_is_replaced pupil
           (ascii_of_nat 195) (ascii_of_nat 169)); vm_compute;
    split; discriminate.
Defined.





End SessionMore.

(** ** The token check and the sync endpoint *)

Module AuthFacts.
Import Json Policy Filter Auth SyncEndpoint Examples JSFacts.

Lemma bearer_prefix (t : string) : String.prefix "Bearer " (bearer t) = true.
Proof. by destruct t. Qed.

Lemma bearer_split (t : string) :
  JS.split " " (bearer t) = "Bearer" :: JS.split " " t.
Proof.
  change (bearer t) with ("Bearer" +:+ String " " t).
  by rewrite split_app_sep.
Qed.

(** X5: of the header [Bearer <token>] the middleware verifies the text
    between the first and the second space: a token without a space is
    verified as it is, and whatever follows a further space is ignored. *)
Theorem token_is_second_piece (verify : string -> option User)
  (token rest : string) :
  JS.lastIndexOf " " token = None ->
  authMiddleware verify (Some (bearer token))
  = match verify token with
    | Some user => CallNext user
    | None => Respond 401 "Unauthorized: Invalid token"
    end
  /\ authMiddleware verify (Some (bearer (token +:+ " " +:+ rest)))
     = authMiddleware verify (Some (bearer token)).
Proof.
  intros Hno. unfold authMiddleware.
  rewrite !bearer_prefix, !bearer_split.
  change (token +:+ " " +:+ rest) with (token +:+ String " " rest).
  rewrite split_app_sep, (split_no_sep _ _ Hno). done.
Qed.

Lemma token_is_second_piece_witness :
  authMiddleware verify_ann (Some (bearer "tok123")) = CallNext pupil
  /\ authMiddleware verify_ann (Some (bearer ("tok123" +:+ " " +:+ "junk")))
     = authMiddleware verify_ann (Some (bearer "tok123")).
Proof.
  destruct (token_is_second_piece verify_ann "tok123" "junk") as [H1 H2].
  - reflexivity.
  - split; [exact H1|exact H2].
Defined.

(** X6: behind [authMiddleware] a request is refused only with 401 and
    then never reaches the database handler; a request that passes is
    filtered for the verified user exactly when its path contains
    [_changes] and its [feed] parameter is truthy -- the filter's
    missing-user branch cannot be taken. *)
Theorem sync_endpoint_routes (verify : string -> option User)
  (authorization : option string) (req_path : string)
  (feed : option qvalue) :
  match db_route verify authorization req_path feed with
  | Refused status _ =>
      status = 401
      /\ forall user, authMiddleware verify authorization <> CallNext user
  | Handled Untouched =>
      (exists user, authMiddleware verify authorization = CallNext user)
      /\ (JS.includes "_changes" req_path = false
          \/ truthy_query feed = false)
  | Handled (Intercepting user) =>
      authMiddleware verify authorization = CallNext user
      /\ JS.includes "_changes" req_path = true
      /\ truthy_query feed = true
  end.
Proof.
  unfold db_route.
  destruct (authMiddleware verify authorization) as [status error|user]
    eqn:Ha.
  - split; [|done]. unfold authMiddleware in Ha.
    repeat case_match; by simplify_eq.
  - unfold createPouchFilterMiddleware. simpl.
    destruct (JS.includes "_changes" req_path),
      (truthy_query feed); simpl; eauto.
Qed.

(** X7: the database-per-user guard admits a user to one database
    only, and two users admitted to the same database have the same
    user name. *)
Theorem user_database_is_private (u1 u2 : User) (dbname : string) :
  user_database_forbidden (Some u1) dbname = false ->
  user_database_forbidden (Some u2) dbname = false ->
  username u1 = username u2
  /\ dbname = "userdb-" +:+ username u1
  /\ user_database_forbidden None dbname = true.
Proof.
  unfold user_database_forbidden.
  intros H1%negb_false_iff%String.eqb_eq H2%negb_false_iff%String.eqb_eq.
  split; [|done]. rewrite H1 in H2.
  by apply (inj (String.append "userdb-")) in H2.
Qed.

Lemma user_database_is_private_witness :
  username pupil = username pupil
  /\ "userdb-ann" = "userdb-" +:+ username pupil
  /\ user_database_forbidden None "userdb-ann" = true.
Proof.
  apply (user_database_is_private pupil pupil "userdb-ann"); reflexivity.
Defined.

End AuthFacts.

(** ** The write validator *)

Module CouchFacts.
Import Json Objects Couch Examples.

(** X8: the validator never rejects the write of an admin nor a
    deletion, and otherwise rejects in three cases only: the document has
    no truthy [type]; it is a user document whose [username] is not the
    writer's name; it is a student or class document and the writer is
    no teacher.  Every other write is accepted, a teacher document from
    anyone included. *)
Theorem validate_doc_update_rejections (newDoc : object)
  (oldDoc : option object) (ctx : userCtx) (secObj : object) :
  validate_doc_update newDoc oldDoc ctx secObj <> Accepted <->
  has_role ctx "_admin" = false
  /\ truthy_prop newDoc "_deleted" = false
  /\ (truthy_prop newDoc "type" = false
      \/ (prop_is newDoc "type" "user" = true
          /\ name_is ctx (prop newDoc "username") = false)
      \/ ((prop_is newDoc "type" "student" = true
           \/ prop_is newDoc "type" "class" = true)
          /\ has_role ctx "teacher" = false)).
Proof.
  unfold validate_doc_update, required.
  assert (Hex : forall a b, a <> b ->
            prop_is newDoc "type" a = true ->
            prop_is newDoc "type" b = true -> False).
  { unfold prop_is. intros a b Hab.
    destruct (prop newDoc "type") as [[]|]; try done.
    intros ->%String.eqb_eq ->%String.eqb_eq. done. }
  destruct (has_role ctx "_admin");
    [by split; [intros []|intros (? & _)]|].
  destruct (truthy_prop newDoc "_deleted");
    [by split; [intros []|intros (_ & ? & _)]|].
  destruct (truthy_prop newDoc "type") eqn:Ht; simpl;
    [|split; [intros _; do 2 (split; [done|]); by left|done]].
  destruct (prop_is newDoc "type" "user") eqn:Hu.
  { destruct (name_is ctx _) eqn:Hn; simpl.
    - split; [by intros []|].
      intros (_ & _ & [?|[[_ ?]|[[H|H] _]]]); [done|done|..]; exfalso;
        [apply (Hex "user" "student")|apply (Hex "user" "class")]; done.
    - split; [intros _; do 2 (split; [done|]); right; left; done|done]. }
  destruct (prop_is newDoc "type" "student") eqn:Hs.
  { destruct (has_role ctx "teacher"); simpl.
    - split; [by intros []|]. by intros (_ & _ & [?|[[? _]|[_ ?]]]).
    - split; [intros _; do 2 (split; [done|]); right; right; split;
               [left|]; done|done]. }
  destruct (prop_is newDoc "type" "class") eqn:Hc.
  { destruct (has_role ctx "teacher"); simpl.
    - split; [by intros []|]. by intros (_ & _ & [?|[[? _]|[_ ?]]]).
    - split; [intros _; do 2 (split; [done|]); right; right; split;
               [right|]; done|done]. }
  split; [by intros []|]. by intros (_ & _ & [?|[[? _]|[[?|?] _]]]).
Qed.

End CouchFacts.

(** ** The REST listings against the feed policy *)

Module RestFacts.
Import Json Policy Objects Rest Examples.

Lemma filter_throwing_ok {A} (p : A -> result bool) (q : A -> bool)
  (l : list A) :
  Forall (fun x => p x = Ok (q x)) l ->
  filter_throwing p l = Ok (List.filter q l).
Proof.
  induction 1 as [|x l Hx _ IH]; [done|].
  cbn [filter_throwing List.filter]. rewrite Hx, IH. by destruct (q x).
Qed.

Lemma filter_throwing_ext {A} (p p' : A -> result bool) (l : list A) :
  Forall (fun x => p x = p' x) l ->
  filter_throwing p l = filter_throwing p' l.
Proof.
  induction 1 as [|x l Hx _ IH]; [done|].
  cbn [filter_throwing]. by rewrite Hx, IH.
Qed.

Lemma filter_throwing_cases {A} (p : A -> result bool) (l : list A) :
  match filter_throwing p l with
  | Throw => exists x, x ∈ l /\ p x = Throw
  | Ok kept => Forall (fun x => p x <> Throw) l
               /\ forall x, x ∈ kept <-> x ∈ l /\ p x = Ok true
  end.
Proof.
  induction l as [|x l IH]; cbn [filter_throwing].
  - split; [done|]. intros x. split; [by intros ?%elem_of_nil|].
    by intros [?%elem_of_nil _].
  - destruct (p x) as [b|] eqn:Hx.
    2: { exists x. split; [left|done]. }
    destruct (filter_throwing p l) as [kept|].
    2: { destruct IH as (y & Hy & Hp). exists y. split; [by right|done]. }
    destruct IH as [Hall Hk]. split.
    { constructor; [by rewrite Hx|done]. }
    intros y. destruct b.
    + rewrite !elem_of_cons, Hk. split.
      * intros [->|[? ?]]; [by auto|by auto].
      * intros [[->|?] ?]; [by left|by right].
    + rewrite Hk, elem_of_cons. split; [by intros [? ?]; auto|].
      intros [[->|?] Hy]; [congruence|done].
Qed.

Lemma elem_of_filter_bool {A} (q : A -> bool) (l : list A) (x : A) :
  x ∈ List.filter q l <-> x ∈ l /\ q x = true.
Proof. by rewrite !list_elem_of_In, filter_In. Qed.

Lemma filter_bool_sublist {A} (q : A -> bool) (l : list A) :
  List.filter q l `sublist_of` l.
Proof.
  induction l as [|x l IH]; [done|]. cbn [List.filter].
  destruct (q x); by constructor.
Qed.

Lemma array_includes_elem (x : string) (arr : list string) :
  array_includes x arr = true <-> x ∈ arr.
Proof.
  unfold array_includes. rewrite existsb_exists. split.
  - intros (y & Hy%list_elem_of_In & ->%String.eqb_eq). done.
  - intros Hx. exists x. by rewrite String.eqb_refl, <- list_elem_of_In.
Qed.

Lemma collect_students_cases (classes : list AnyDocument)
  (acc : gset string) :
  match collect_students classes acc with
  | Throw => exists c, c ∈ classes /\ studentIds c = None
  | Ok ids =>
      Forall (fun c => studentIds c <> None) classes
      /\ forall id, id ∈ ids <->
           id ∈ acc \/ exists c roster,
             c ∈ classes /\ studentIds c = Some roster /\ id ∈ roster
  end.
Proof.
  revert acc. induction classes as [|c classes IH]; intros acc;
    cbn [collect_students].
  - split; [done|]. intros id. split; [by left|].
    intros [?|(c & ? & ?%elem_of_nil & _)]; done.
  - destruct (studentIds c) as [roster|] eqn:Hc.
    2: { exists c. split; [left|done]. }
    specialize (IH (acc ∪ list_to_set roster)).
    destruct (collect_students classes _) as [ids|].
    + destruct IH as [Hall IH]. split.
      { constructor; [by rewrite Hc|done]. }
      intros id. rewrite IH, elem_of_union, elem_of_list_to_set. split.
      * intros [[?|?]|(c' & r' & ? & ? & ?)]; [by left|..].
        -- right. exists c, roster. split; [left|done].
        -- right. exists c', r'. split; [by right|done].
      * intros [?|(c' & r' & [->|?]%elem_of_cons & Hr & ?)]; [by auto|..].
        -- left. right. congruence.
        -- right. by exists c', r'.
    + destruct IH as (c' & ? & ?). exists c'. split; [by right|done].
Qed.

(** X9: on class documents the listing of [GET /api/classes] is the
    feed policy applied to each document, for every role: the same
    classes in the same order, and the 500 of the route exactly when
    the policy throws. *)
Theorem class_listing_is_the_feed_policy (user : User)
  (allClasses : list AnyDocument) :
  Forall (fun doc => type doc = "class") allClasses ->
  list_classes user allClasses
  = filter_throwing (isUserAllowed user) allClasses.
Proof.
  intros Hall. unfold list_classes.
  destruct (String.eqb (role user) "teacher") eqn:Ht.
  { symmetry. apply filter_throwing_ok.
    eapply Forall_impl; [exact Hall|]. intros doc Hd. cbv beta in Hd.
    apply String.eqb_eq in Ht. unfold isUserAllowed, teaches.
    rewrite Hd, Ht. by destruct (bool_decide _). }
  destruct (String.eqb (role user) "student") eqn:Hs.
  { apply filter_throwing_ext.
    eapply Forall_impl; [exact Hall|]. intros doc Hd. cbv beta in Hd.
    apply String.eqb_eq in Hs. unfold isUserAllowed, lists_student.
    rewrite Hd, Hs. cbn.
    destruct (studentIds doc); [|done]. by destruct (array_includes _ _). }
  destruct (String.eqb (role user) "admin") eqn:Ha.
  { symmetry. rewrite (filter_throwing_ok _ (fun _ => true)).
    - f_equal. clear. induction allClasses; [done|].
      cbn [List.filter]. by f_equal.
    - apply Forall_forall. intros doc _. unfold isUserAllowed.
      by rewrite Ha. }
  symmetry. rewrite (filter_throwing_ok _ (fun _ => false)).
  - f_equal. clear. by induction allClasses.
  - eapply Forall_impl; [exact Hall|]. intros doc Hd. cbv beta in Hd.
    unfold isUserAllowed. by rewrite Hd, Ha, Ht, Hs.
Qed.

Lemma class_listing_is_the_feed_policy_witness :
  list_classes pupil [class_C; class_led_by_pupil]
  = filter_throwing (isUserAllowed pupil) [class_C; class_led_by_pupil].
Proof.
  apply (class_listing_is_the_feed_policy pupil
           [class_C; class_led_by_pupil]).
  repeat constructor.
Defined.

(** X10: to a teacher [GET /api/students] lists, in database order, the
    student documents whose [_id] is on the roster of a class assigned
    to that teacher -- each of them a document the feed policy allows --
    and answers 500 exactly when one of the teacher's classes has no
    roster. *)
Theorem teacher_lists_enrolled_students (user : User)
  (allRelevantDocs : list AnyDocument) :
  role user = "teacher" ->
  match list_students user allRelevantDocs with
  | Throw =>
      exists c, c ∈ allRelevantDocs /\ type c = "class"
                /\ teacherId c = Some (userId user)
                /\ studentIds c = None
  | Ok finalDocs =>
      (forall c, c ∈ allRelevantDocs -> type c = "class" ->
                 teacherId c = Some (userId user) -> studentIds c <> None)
      /\ finalDocs `sublist_of` allRelevantDocs
      /\ Forall (fun doc => isUserAllowed user doc = Ok true) finalDocs
      /\ forall doc, doc ∈ finalDocs <->
           doc ∈ allRelevantDocs /\ type doc = "student"
           /\ exists c roster,
                c ∈ allRelevantDocs /\ type c = "class"
                /\ teacherId c = Some (userId user)
                /\ studentIds c = Some roster /\ _id doc ∈ roster
  end.
Proof.
  intros Hrole. unfold list_students. rewrite Hrole. cbn [String.eqb].
  change (String.eqb "teacher" "student") with false.
  change (String.eqb "teacher" "teacher") with true. cbv iota.
  set (classes := List.filter
                    (fun d => is_type "class" d && teaches (userId user) d)
                    allRelevantDocs).
  assert (Hcl : forall c, c ∈ classes <->
            c ∈ allRelevantDocs /\ type c = "class"
            /\ teacherId c = Some (userId user)).
  { intros c. unfold classes. rewrite elem_of_filter_bool. cbv beta.
    unfold is_type, teaches.
    rewrite andb_true_iff, String.eqb_eq, bool_decide_eq_true. tauto. }
  pose proof (collect_students_cases classes ∅) as Hcs.
  destruct (collect_students classes ∅) as [ids|].
  2: { destruct Hcs as (c & Hc%Hcl & Hn). exists c. tauto. }
  destruct Hcs as [Hrosters Hcs].
  assert (Hin : forall doc,
            doc ∈ List.filter (fun doc => bool_decide (_id doc ∈ ids))
                    (List.filter (is_type "student") allRelevantDocs) <->
            doc ∈ allRelevantDocs /\ type doc = "student"
            /\ exists c roster,
                 c ∈ allRelevantDocs /\ type c = "class"
                 /\ teacherId c = Some (userId user)
                 /\ studentIds c = Some roster /\ _id doc ∈ roster).
  { intros doc. rewrite !elem_of_filter_bool. cbv beta.
    rewrite bool_decide_eq_true, Hcs.
    unfold is_type. rewrite String.eqb_eq. split.
    - intros [[? ?] [?%elem_of_empty|(c & r & Hc%Hcl & ? & ?)]]; [done|].
      split; [done|]. split; [done|]. exists c, r. tauto.
    - intros (? & ? & c & r & ? & ? & ? & ? & ?). split; [done|].
      right. exists c, r. rewrite Hcl. tauto. }
  split; [|split; [|split; [|exact Hin]]].
  - intros c Hc Hty Ht. rewrite Forall_forall in Hrosters.
    apply Hrosters, Hcl. tauto.
  - etrans; apply filter_bool_sublist.
  - apply Forall_forall. intros doc (_ & Hty & _)%Hin.
    unfold isUserAllowed. by rewrite Hrole, Hty.
Qed.

Lemma teacher_lists_enrolled_students_witness :
  role teacher = "teacher"
  /\ [student_ann] `sublist_of` school
  /\ Forall (fun doc => isUserAllowed teacher doc = Ok true) [student_ann].
Proof.
  split; [reflexivity|].
  pose proof (teacher_lists_enrolled_students teacher school eq_refl) as H.
  change (list_students teacher school) with (Ok [student_ann]) in H.
  split; [exact (proj1 (proj2 H))|exact (proj1 (proj2 (proj2 H)))].
Defined.

(** X11: to a student the REST routes list documents the feed policy
    withholds from that same student: [GET /api/students] lists the
    student documents whose [_id] is the student's identity, and every
    one of them is denied by [isUserAllowed]. *)
Theorem student_listing_exceeds_the_feed (user : User)
  (allRelevantDocs : list AnyDocument) :
  role user = "student" ->
  exists finalDocs,
    list_students user allRelevantDocs = Ok finalDocs
    /\ Forall (fun doc => isUserAllowed user doc = Ok false) finalDocs
    /\ forall doc, doc ∈ finalDocs <->
         doc ∈ allRelevantDocs /\ type doc = "student"
         /\ _id doc = userId user.
Proof.
  intros Hrole. unfold list_students. rewrite Hrole.
  change (String.eqb "student" "student") with true. cbv iota.
  eexists. split; [done|].
  assert (Hin : forall doc,
            doc ∈ List.filter (own (userId user))
                    (List.filter (is_type "student") allRelevantDocs) <->
            doc ∈ allRelevantDocs /\ type doc = "student"
            /\ _id doc = userId user).
  { intros doc. rewrite !elem_of_filter_bool. unfold own, is_type.
    rewrite !String.eqb_eq. tauto. }
  split; [|exact Hin].
  apply Forall_forall. intros doc (_ & Hty & _)%Hin.
  unfold isUserAllowed. by rewrite Hrole, Hty.
Qed.

Lemma student_listing_exceeds_the_feed_witness :
  role pupil = "student"
  /\ Forall (fun doc => isUserAllowed pupil doc = Ok false) [student_ann].
Proof.
  split; [reflexivity|].
  destruct (student_listing_exceeds_the_feed pupil school eq_refl)
    as (finalDocs & Hl & Hdenied & _).
  vm_compute in Hl. injection Hl as <-. exact Hdenied.
Defined.

(** X12: to a student [GET /api/teachers] lists the teacher documents
    whose [_id] is the [teacherId] of a class listing the student --
    documents the feed policy denies to a student -- and answers 500
    exactly when a class fetched, the student's or not, has no roster. *)
Theorem student_lists_own_teachers (user : User)
  (allRelevantDocs : list AnyDocument) :
  role user = "student" ->
  match list_teachers user allRelevantDocs with
  | Throw =>
      exists c, c ∈ allRelevantDocs /\ type c = "class"
                /\ studentIds c = None
  | Ok finalDocs =>
      (forall c, c ∈ allRelevantDocs -> type c = "class" ->
                 studentIds c <> None)
      /\ finalDocs `sublist_of` allRelevantDocs
      /\ Forall (fun doc => isUserAllowed user doc = Ok false) finalDocs
      /\ forall doc, doc ∈ finalDocs <->
           doc ∈ allRelevantDocs /\ type doc = "teacher"
           /\ exists c roster,
                c ∈ allRelevantDocs /\ type c = "class"
                /\ studentIds c = Some roster /\ userId user ∈ roster
                /\ teacherId c = Some (_id doc)
  end.
Proof.
  intros Hrole. unfold list_teachers. rewrite Hrole.
  change (String.eqb "student" "teacher") with false.
  change (String.eqb "student" "student") with true. cbv iota.
  match goal with |- context [filter_throwing ?p _] => set (p0 := p) end.
  pose proof (filter_throwing_cases p0 allRelevantDocs) as Hft.
  destruct (filter_throwing p0 allRelevantDocs) as [studentClasses|].
  2: { destruct Hft as (c & Hc & Hp). exists c. unfold p0 in Hp.
       unfold is_type, lists_student in Hp.
       destruct (String.eqb (type c) "class") eqn:Hty; [|done].
       apply String.eqb_eq in Hty. destruct (studentIds c); [done|].
       done. }
  destruct Hft as [Hrosters Hk].
  assert (Hcl : forall c, c ∈ studentClasses <->
            c ∈ allRelevantDocs /\ type c = "class"
            /\ exists roster, studentIds c = Some roster
                              /\ userId user ∈ roster).
  { intros c. rewrite Hk. unfold p0, is_type, lists_student.
    destruct (String.eqb (type c) "class") eqn:Hty.
    - apply String.eqb_eq in Hty. destruct (studentIds c) as [roster|].
      + split.
        * intros [? [= Hi%array_includes_elem]]. split; [done|].
          split; [done|]. by exists roster.
        * intros (? & _ & r & [= <-] & Hi%array_includes_elem).
          by rewrite Hi.
      + split; [by intros [_ ?]|]. by intros (_ & _ & r & ? & _).
    - apply String.eqb_neq in Hty. split; [by intros [_ ?]|].
      by intros (_ & ? & _). }
  assert (Hin : forall doc,
            doc ∈ List.filter
                    (fun doc => bool_decide
                       (_id doc ∈ (list_to_set (omap teacherId studentClasses)
                                   : gset string)))
                    (List.filter (is_type "teacher") allRelevantDocs) <->
            doc ∈ allRelevantDocs /\ type doc = "teacher"
            /\ exists c roster,
                 c ∈ allRelevantDocs /\ type c = "class"
                 /\ studentIds c = Some roster /\ userId user ∈ roster
                 /\ teacherId c = Some (_id doc)).
  { intros doc. rewrite !elem_of_filter_bool. cbv beta.
    rewrite bool_decide_eq_true, elem_of_list_to_set, list_elem_of_omap.
    unfold is_type. rewrite String.eqb_eq. split.
    - intros [[? ?] (c & (? & ? & r & ? & ?)%Hcl & ?)].
      split; [done|]. split; [done|]. by exists c, r.
    - intros (? & ? & c & r & ? & ? & ? & ? & ?). split; [done|].
      exists c. split; [|done]. apply Hcl. split; [done|].
      split; [done|]. by exists r. }
  split; [|split; [|split; [|exact Hin]]].
  - intros c Hc Hty Hn. rewrite Forall_forall in Hrosters.
    apply (Hrosters c Hc). unfold p0, is_type, lists_student.
    apply String.eqb_eq in Hty. by rewrite Hty, Hn.
  - etrans; apply filter_bool_sublist.
  - apply Forall_forall. intros doc (_ & Hty & _)%Hin.
    unfold isUserAllowed. by rewrite Hrole, Hty.
Qed.

Lemma student_lists_own_teachers_witness :
  role pupil = "student"
  /\ [teacher_pat] `sublist_of` school
  /\ Forall (fun doc => isUserAllowed pupil doc = Ok false) [teacher_pat].
Proof.
  split; [reflexivity|].
  pose proof (student_lists_own_teachers pupil school eq_refl) as H.
  change (list_teachers pupil school) with (Ok [teacher_pat]) in H.
  split; [exact (proj1 (proj2 H))|exact (proj1 (proj2 (proj2 H)))].
Defined.

End RestFacts.

(** ** The write handlers and the login *)

Module WriteFacts.
Import Json Policy Objects Rest Examples.

(** Reading a spread: of [{ ...a, ...b }] the members of [b] win. *)
Lemma prop_app (a b : object) (key : string) :
  prop (a ++ b) key
  = match prop b key with
    | Some v => Some v
    | None => prop a key
    end.
Proof.
  unfold prop. induction a as [|[k v] a IH]; cbn [app lookup_field].
  - by destruct (lookup_field key b).
  - rewrite IH. by destruct (lookup_field key b).
Qed.

Lemma prop_updatedDoc (doc body : object) (now key : string) :
  prop (updatedDoc doc body now) key
  = if String.eqb key "updatedAt" then Some (JStr now)
    else match prop body key with
         | Some v => Some v
         | None => prop doc key
         end.
Proof.
  unfold updatedDoc. rewrite !prop_app. unfold prop at 1.
  cbn [lookup_field]. rewrite (String.eqb_sym key).
  by destruct (String.eqb "updatedAt" key).
Qed.

(** X13: [PUT /api/users/:id] and [PUT /api/teachers/:id] refuse exactly
    the caller who is no admin and whose identity is not the [_id] of
    the fetched document; what they store otherwise takes every member
    the request body names from the body -- [_id], [type] and [role]
    included -- the rest from the fetched document, and [updatedAt]
    from the server. *)
Theorem profile_update_takes_the_body (user : User) (doc body : object)
  (now : string) :
  match put_profile user doc body now with
  | Forbidden403 =>
      role user <> "admin" /\ prop doc "_id" <> Some (JStr (userId user))
  | Store stored =>
      (role user = "admin" \/ prop doc "_id" = Some (JStr (userId user)))
      /\ forall key,
           prop stored key
           = if String.eqb key "updatedAt" then Some (JStr now)
             else match prop body key with
                  | Some v => Some v
                  | None => prop doc key
                  end
  end.
Proof.
  unfold put_profile, prop_is.
  destruct (String.eqb (role user) "admin") eqn:Ha; cbn [negb andb].
  { split; [left; by apply String.eqb_eq|]. apply prop_updatedDoc. }
  apply String.eqb_neq in Ha.
  destruct (prop doc "_id") as [[| | |s| |]|] eqn:Hid; cbn [negb];
    try (split; [done|congruence]).
  destruct (String.eqb s (userId user)) eqn:Hs; cbn [negb].
  - apply String.eqb_eq in Hs. subst s.
    split; [by right|]. apply prop_updatedDoc.
  - apply String.eqb_neq in Hs. split; [done|congruence].
Qed.

(** X14: [PUT /api/classes/:id] lets a teacher who is assigned to the
    class hand it to anyone: the stored [teacherId] is the one the body
    names, after which the same request is refused to its sender. *)
Theorem class_update_can_reassign (user : User) (doc body : object)
  (now now' other : string) :
  role user <> "admin" ->
  prop doc "teacherId" = Some (JStr (userId user)) ->
  prop body "teacherId" = Some (JStr other) ->
  other <> userId user ->
  put_class user doc body now = Store (updatedDoc doc body now)
  /\ prop (updatedDoc doc body now) "teacherId" = Some (JStr other)
  /\ put_class user (updatedDoc doc body now) body now' = Forbidden403.
Proof.
  intros Ha%String.eqb_neq Hown Hbody Hother.
  assert (Hnew : prop (updatedDoc doc body now) "teacherId"
                 = Some (JStr other)).
  { rewrite prop_updatedDoc, Hbody. done. }
  unfold put_class, prop_is. rewrite Ha, Hown, Hnew, String.eqb_refl.
  apply String.eqb_neq in Hother. rewrite Hother. done.
Qed.

Lemma class_update_can_reassign_witness :
  put_class teacher
    [("_id", JStr "class_C"); ("teacherId", JStr "user_teacher_pat")]
    [("teacherId", JStr "user_teacher_kim")] "2025-01-01"
  = Store (updatedDoc
             [("_id", JStr "class_C"); ("teacherId", JStr "user_teacher_pat")]
             [("teacherId", JStr "user_teacher_kim")] "2025-01-01")
  /\ prop (updatedDoc
             [("_id", JStr "class_C"); ("teacherId", JStr "user_teacher_pat")]
             [("teacherId", JStr "user_teacher_kim")] "2025-01-01")
       "teacherId" = Some (JStr "user_teacher_kim")
  /\ put_class teacher
       (updatedDoc
          [("_id", JStr "class_C"); ("teacherId", JStr "user_teacher_pat")]
          [("teacherId", JStr "user_teacher_kim")] "2025-01-01")
       [("teacherId", JStr "user_teacher_kim")] "2025-01-02"
     = Forbidden403.
Proof.
  apply (class_update_can_reassign teacher
           [("_id", JStr "class_C"); ("teacherId", JStr "user_teacher_pat")]
           [("teacherId", JStr "user_teacher_kim")]
           "2025-01-01" "2025-01-02" "user_teacher_kim").
  - discriminate.
  - reflexivity.
  - reflexivity.
  - discriminate.
Defined.

(** X15: the plain server's [PUT /api/docs/:id] replaces the document:
    [_id] and [_rev] are always those of the stored document and
    [updatedAt] the server's, whatever the body says; every other
    member comes from the body alone, so a stored member the body does
    not repeat is gone. *)
Theorem plain_update_replaces (body : object) (doc_id doc_rev : json)
  (now key : string) :
  prop (replacedDoc body doc_id doc_rev now) key
  = if String.eqb key "updatedAt" then Some (JStr now)
    else if String.eqb key "_rev" then Some doc_rev
    else if String.eqb key "_id" then Some doc_id
    else prop body key.
Proof.
  unfold replacedDoc. rewrite prop_app. unfold prop at 1.
  cbn [lookup_field]. rewrite !(String.eqb_sym key).
  destruct (String.eqb "updatedAt" key); [done|].
  destruct (String.eqb "_rev" key); [done|].
  by destruct (String.eqb "_id" key).
Qed.

(** X16: a document created through a typed router has the router's
    type and the server's [createdAt], whatever the body says; every
    other member is the body's. *)
Theorem created_document_is_typed (body : object) (ty now key : string) :
  prop (newDoc body ty now) key
  = if String.eqb key "createdAt" then Some (JStr now)
    else if String.eqb key "type" then Some (JStr ty)
    else prop body key.
Proof.
  unfold newDoc. rewrite prop_app. unfold prop at 1.
  cbn [lookup_field]. rewrite !(String.eqb_sym key).
  destruct (String.eqb "createdAt" key); [done|].
  by destruct (String.eqb "type" key).
Qed.

End WriteFacts.

Module LoginFacts.
Import Json Policy Objects Rest Examples.

(** X17: for a user that exists the login never looks at the password:
    any two non-empty passwords get the same payload, that of the
    stored user document, and nothing is written. *)
Theorem login_ignores_password (db_get : string -> option object)
  (db_put : object -> bool) (username password password' : string)
  (userDoc : object) :
  JS.truthy_string username = true ->
  JS.truthy_string password = true ->
  JS.truthy_string password' = true ->
  db_get ("user_" +:+ username) = Some userDoc ->
  login db_get db_put (Some username) (Some password)
  = LoggedIn (payload_of userDoc) None
  /\ login db_get db_put (Some username) (Some password')
     = login db_get db_put (Some username) (Some password).
Proof.
  intros Hu Hp Hp' Hget. unfold login. by rewrite Hu, Hp, Hp', Hget.
Qed.

Lemma login_ignores_password_witness :
  login users_before put_succeeds (Some "ann") (Some "secret")
  = LoggedIn (payload_of ann_user_doc) None
  /\ login users_before put_succeeds (Some "ann") (Some "guess")
     = login users_before put_succeeds (Some "ann") (Some "secret").
Proof.
  apply (login_ignores_password users_before put_succeeds
           "ann" "secret" "guess" ann_user_doc); reflexivity.
Defined.

(** X18: a first login with an unknown name creates the user and logs
    them in as [user_<name>] with the role [teacher] when the name
    starts with [teacher] and [student] otherwise -- never as an
    admin -- and the feed policy shows that user their own user
    document. *)
Theorem first_login_creates_user (db_get : string -> option object)
  (db_put : object -> bool) (username password : string) :
  JS.truthy_string username = true ->
  JS.truthy_string password = true ->
  db_get ("user_" +:+ username) = None ->
  db_put (newUser username password) = true ->
  login db_get db_put (Some username) (Some password)
  = LoggedIn (payload_of (newUser username password))
      (Some (newUser username password))
  /\ user_of_payload (payload_of (newUser username password))
     = Some {| userId := "user_" +:+ username; username := username;
               role := if String.prefix "teacher" username
                       then "teacher" else "student" |}
  /\ (if String.prefix "teacher" username then "teacher" else "student")
     <> "admin"
  /\ isUserAllowed
       {| userId := "user_" +:+ username; username := username;
          role := if String.prefix "teacher" username
                  then "teacher" else "student" |}
       {| type := "user"; _id := "user_" +:+ username;
          teacherId := None; studentIds := None |} = Ok true.
Proof.
  intros Hu Hp Hget Hput. unfold login. rewrite Hu, Hp, Hget, Hput.
  cbn [negb orb]. split; [reflexivity|]. split.
  { unfold user_of_payload, payload_of, newUser, prop, or_else.
    cbn. by destruct (String.prefix "teacher" username). }
  split; [by destruct (String.prefix "teacher" username)|].
  unfold isUserAllowed. cbn [role type _id userId].
  assert (He : String.eqb ("user_" +:+ username) ("user_" +:+ username)
               = true) by apply String.eqb_refl.
  destruct (String.prefix "teacher" username).
  - change (String.eqb "teacher" "admin") with false.
    change (String.eqb "user" "user") with true. cbv iota. by rewrite He.
  - change (String.eqb "student" "admin") with false.
    change (String.eqb "user" "user") with true. cbv iota. by rewrite He.
Qed.

Lemma first_login_creates_user_witness :
  login no_users put_succeeds (Some "ann") (Some "secret")
  = LoggedIn (payload_of (newUser "ann" "secret"))
      (Some (newUser "ann" "secret"))
  /\ user_of_payload (payload_of (newUser "ann" "secret"))
     = Some {| userId := "user_" +:+ "ann"; username := "ann";
               role := if String.prefix "teacher" "ann"
                       then "teacher" else "student" |}
  /\ (if String.prefix "teacher" "ann" then "teacher" else "student")
     <> "admin"
  /\ isUserAllowed
       {| userId := "user_" +:+ "ann"; username := "ann";
          role := if String.prefix "teacher" "ann"
                  then "teacher" else "student" |}
       {| type := "user"; _id := "user_" +:+ "ann";
          teacherId := None; studentIds := None |} = Ok true.
Proof.
  apply (first_login_creates_user no_users put_succeeds "ann" "secret");
    reflexivity.
Defined.

(** X19: any user, a student included, becomes an admin through their
    own profile: [PUT /api/users/:id] on their own document with a body
    naming the role [admin] is stored, the next login signs that role
    into the token, and the feed policy then allows that user every
    document. *)
Theorem own_profile_update_grants_admin (user : User)
  (doc body fetched : object) (now uname password : string)
  (db_get : string -> option object) (db_put : object -> bool)
  (target : AnyDocument) :
  prop doc "_id" = Some (JStr (userId user)) ->
  prop doc "username" = Some (JStr uname) ->
  prop body "role" = Some (JStr "admin") ->
  prop body "_id" = None ->
  prop body "username" = None ->
  JS.truthy_string uname = true ->
  JS.truthy_string password = true ->
  db_get ("user_" +:+ uname) = Some fetched ->
  prop fetched "_id" = prop (updatedDoc doc body now) "_id" ->
  prop fetched "username" = prop (updatedDoc doc body now) "username" ->
  prop fetched "role" = prop (updatedDoc doc body now) "role" ->
  put_profile user doc body now = Store (updatedDoc doc body now)
  /\ login db_get db_put (Some uname) (Some password)
     = LoggedIn (payload_of fetched) None
  /\ user_of_payload (payload_of fetched)
     = Some {| userId := userId user; username := uname; role := "admin" |}
  /\ isUserAllowed
       {| userId := userId user; username := uname; role := "admin" |}
       target = Ok true.
Proof.
  intros Hid Hname Hrole Hbid Hbname Hu Hp Hget Hfid Hfname Hfrole.
  rewrite WriteFacts.prop_updatedDoc in Hfid, Hfname, Hfrole.
  rewrite Hbid, Hid in Hfid. rewrite Hbname, Hname in Hfname.
  rewrite Hrole in Hfrole. cbn in Hfid, Hfname, Hfrole.
  split; [|split; [|split]].
  - unfold put_profile, prop_is. rewrite Hid, String.eqb_refl.
    by rewrite andb_false_r.
  - unfold login. by rewrite Hu, Hp, Hget.
  - unfold user_of_payload, payload_of. cbn [p_userId p_username p_role].
    by rewrite Hfid, Hfname, Hfrole.
  - done.
Qed.

Lemma own_profile_update_grants_admin_witness :
  put_profile pupil ann_user_doc make_admin_body "2025-01-01T00:00:00.000Z"
  = Store (updatedDoc ann_user_doc make_admin_body
             "2025-01-01T00:00:00.000Z")
  /\ login users_after put_succeeds (Some "ann") (Some "secret")
     = LoggedIn
         (payload_of (updatedDoc ann_user_doc make_admin_body
                        "2025-01-01T00:00:00.000Z")) None
  /\ user_of_payload
       (payload_of (updatedDoc ann_user_doc make_admin_body
                      "2025-01-01T00:00:00.000Z"))
     = Some {| userId := userId pupil; username := "ann"; role := "admin" |}
  /\ isUserAllowed
       {| userId := userId pupil; username := "ann"; role := "admin" |}
       class_without_roster = Ok true.
Proof.
  apply (own_profile_update_grants_admin pupil ann_user_doc make_admin_body
           (updatedDoc ann_user_doc make_admin_body
              "2025-01-01T00:00:00.000Z")
           "2025-01-01T00:00:00.000Z" "ann" "secret"
           users_after put_succeeds class_without_roster); reflexivity.
Defined.

End LoginFacts.
